(** * greenlight API: process bootstrap ([cmd/api/main.go])

    A shallow embedding of [cmd/api/main.go]: the configuration resolver
    (environment, [.env] file, command-line flags), the database pool
    initialiser [openDB], the diagnostics publisher and the start-up
    sequence of [main], followed by the properties of the specification
    that concern them.

    Conventions.
    - Go [string]s are byte strings: [string] of [ascii].
    - Go [int] is 64 bits wide; values are [Z], the wrap-around of the
      unsigned accumulator of [strconv] is written out.
    - A Go [(value, error)] pair is a pair [(value, option error)]; [None]
      is the [nil] error.
    - The process environment is a finite map from names to values. *)

From Stdlib Require Import ZArith String Ascii List Lia.
From stdpp Require Import gmap strings list.

Local Open Scope Z_scope.
Local Open Scope string_scope.
Local Open Scope list_scope.

(** ** Errors *)

(** The error values that reach [main]. [ErrSyntax] and [ErrRange] are the
    two kinds of [strconv.NumError]; the others stand for the error of the
    named call. *)
Inductive error : Type :=
| ErrSyntax
| ErrRange
| ErrDuration (s : string)
| ErrOpen (dsn : string)
| ErrPing
| ErrServe
| ErrDotenv.

(** ** Package [strconv] *)

Module strconv.

Local Close Scope string_scope.

Definition code (c : ascii) : Z := Z.of_N (N_of_ascii c).

(** [lower(c) = c | ('x' - 'X')] *)
Definition lower (c : Z) : Z := Z.lor c 32.

Definition maxUint64 : Z := 2 ^ 64 - 1.

(** The digit loop of [ParseUint]: [n] is the [uint64] accumulator,
    [base0] says whether underscores are skipped.  The boolean of the
    result is the [underscores] flag. *)
Fixpoint digits (base0 : bool) (base cutoff maxVal : Z) (s : string)
    (n : Z) (underscores : bool) : Z * option error * bool :=
  match s with
  | EmptyString => (n, None, underscores)
  | String a s' =>
      let c := code a in
      if (c =? code "_"%char) && base0 then
        digits base0 base cutoff maxVal s' n true
      else
        let d :=
          if (code "0"%char <=? c) && (c <=? code "9"%char)
          then Some (c - code "0"%char)
          else if (code "a"%char <=? lower c) && (lower c <=? code "z"%char)
               then Some (lower c - code "a"%char + 10)
               else None in
        match d with
        | None => (0, Some ErrSyntax, underscores)
        | Some d =>
            if d >=? base then (0, Some ErrSyntax, underscores)
            else if n >=? cutoff then (maxVal, Some ErrRange, underscores)
            else
              let n' := n * base in
              let n1 := (n' + d) mod 2 ^ 64 in
              if (n1 <? n') || (n1 >? maxVal)
              then (maxVal, Some ErrRange, underscores)
              else digits base0 base cutoff maxVal s' n1 underscores
        end
  end.

Definition is_sign (a : ascii) : bool :=
  (code a =? code "-"%char) || (code a =? code "+"%char).

Definition is_base_letter (a : ascii) : bool :=
  let l := lower (code a) in
  (l =? code "b"%char) || (l =? code "o"%char) || (l =? code "x"%char).

(** [underscoreOK]: underscores only between digits or between the base
    prefix and a digit.  [saw] is the class of the last byte: ["^"]
    beginning, ["0"] digit, ["_"] underscore, ["!"] anything else. *)
Fixpoint underscoreLoop (hex : bool) (s : string) (saw : ascii) : bool :=
  match s with
  | EmptyString => negb (Ascii.eqb saw "_"%char)
  | String a s' =>
      let c := code a in
      if ((code "0"%char <=? c) && (c <=? code "9"%char))
         || (hex && (code "a"%char <=? lower c) && (lower c <=? code "f"%char))
      then underscoreLoop hex s' "0"%char
      else if c =? code "_"%char then
        if Ascii.eqb saw "0"%char then underscoreLoop hex s' "_"%char else false
      else if Ascii.eqb saw "_"%char then false
      else underscoreLoop hex s' "!"%char
  end.

Definition underscoreOK (s : string) : bool :=
  let s1 := match s with
            | String a r => if is_sign a then r else s
            | EmptyString => s
            end in
  match s1 with
  | String "0"%char (String b r) =>
      if is_base_letter b
      then underscoreLoop (lower (code b) =? code "x"%char) r "0"%char
      else underscoreLoop false s1 "^"%char
  | _ => underscoreLoop false s1 "^"%char
  end.

(** The second half of [ParseUint]: the digits of [body] in [base],
    then the check of the underscores of the whole text [s0]. *)
Definition parseDigits (base0 : bool) (base : Z) (s0 body : string)
    : Z * option error :=
  let cutoff := maxUint64 / base + 1 in
  let '(n, err, underscores) :=
    digits base0 base cutoff maxUint64 body 0 false in
  match err with
  | Some e => (n, Some e)
  | None =>
      if underscores && negb (underscoreOK s0)
      then (0, Some ErrSyntax)
      else (n, None)
  end.

(** [ParseUint(s, base, 64)] for [base] 0 or 10: with base 0 the prefix
    of [s] chooses the base. *)
Definition ParseUint (s : string) (base : Z) : Z * option error :=
  match s with
  | EmptyString => (0, Some ErrSyntax)
  | String a0 r0 =>
      if negb (base =? 0) then parseDigits false base s s
      else if Ascii.eqb a0 "0"%char then
        match r0 with
        | String a1 (String a2 r2) =>
            let l := lower (code a1) in
            if l =? code "b"%char then parseDigits true 2 s (String a2 r2)
            else if l =? code "o"%char
                 then parseDigits true 8 s (String a2 r2)
            else if l =? code "x"%char
                 then parseDigits true 16 s (String a2 r2)
            else parseDigits true 8 s r0
        | _ => parseDigits true 8 s r0
        end
      else parseDigits true 10 s s
  end.

(** [ParseInt(s, base, 64)] for [base] 0 or 10. *)
Definition ParseInt (s : string) (base : Z) : Z * option error :=
  match s with
  | EmptyString => (0, Some ErrSyntax)
  | String a r =>
      let neg := code a =? code "-"%char in
      let body := if is_sign a then r else s in
      let '(un, err) := ParseUint body base in
      match err with
      | Some ErrRange | None =>
          let cutoff := 2 ^ 63 in
          if negb neg && (un >=? cutoff) then (cutoff - 1, Some ErrRange)
          else if neg && (un >? cutoff) then (- cutoff, Some ErrRange)
          else (if neg then - un else un, None)
      | Some e => (0, Some e)
      end
  end.

(** [Atoi(s)] is [ParseInt(s, 10, 0)]; the library's fast path for short
    inputs computes the same pair. *)
Definition Atoi (s : string) : Z * option error := ParseInt s 10.

Local Open Scope string_scope.

Definition ParseBool (str : string) : bool * option error :=
  if (String.eqb str "1") || (String.eqb str "t") || (String.eqb str "T")
     || (String.eqb str "true") || (String.eqb str "TRUE")
     || (String.eqb str "True")
  then (true, None)
  else if (String.eqb str "0") || (String.eqb str "f")
          || (String.eqb str "F") || (String.eqb str "false")
          || (String.eqb str "FALSE") || (String.eqb str "False")
  then (false, None)
  else (false, Some ErrSyntax).

End strconv.

(** ** Package [strings] *)

Module strings.

(** [Split(s, sep)] for a separator of one byte, the only use the program
    makes of it: the pieces of [s] between the occurrences of [sep]. *)
Fixpoint Split (s : string) (sep : ascii) : list string :=
  match s with
  | EmptyString => [EmptyString]
  | String c s' =>
      if Ascii.eqb c sep then EmptyString :: Split s' sep
      else match Split s' sep with
           | piece :: pieces => String c piece :: pieces
           | [] => [String c EmptyString]
           end
  end.

End strings.

(** ** Data of the program *)

(** [type config struct]: the nested anonymous structs [db], [limiter],
    [smtp] and [cors] are flattened, their fields prefixed with the name of
    the struct.  The three database limits are [string] fields in the
    source. *)
Record config : Type := {
  port : string;
  env : string;
  db_dsn : string;
  db_maxOpenConns : string;
  db_maxIdleConns : string;
  db_maxIdleTime : string;
  limiter_rps : Z;
  limiter_burst : Z;
  limiter_enabled : bool;
  smtp_host : string;
  smtp_port : Z;
  smtp_username : string;
  smtp_password : string;
  smtp_sender : string;
  cors_trustedOrigins : list string
}.

(** [var cfg config]: the zero value ([nil] slice is the empty list). *)
Definition zero_config : config :=
  {| port := EmptyString; env := EmptyString; db_dsn := EmptyString;
     db_maxOpenConns := EmptyString; db_maxIdleConns := EmptyString;
     db_maxIdleTime := EmptyString; limiter_rps := 0; limiter_burst := 0;
     limiter_enabled := false; smtp_host := EmptyString; smtp_port := 0;
     smtp_username := EmptyString; smtp_password := EmptyString;
     smtp_sender := EmptyString; cors_trustedOrigins := [] |}.

(** Assignment through the pointers [&cfg.port], [&cfg.env], ... that
    [main] hands to the [flag] package: [set_f v c] is [c] after
    [c.f = v]. *)
Definition set_port (v : string) (c : config) : config :=
  {| port := v; env := env c; db_dsn := db_dsn c;
     db_maxOpenConns := db_maxOpenConns c;
     db_maxIdleConns := db_maxIdleConns c;
     db_maxIdleTime := db_maxIdleTime c; limiter_rps := limiter_rps c;
     limiter_burst := limiter_burst c;
     limiter_enabled := limiter_enabled c; smtp_host := smtp_host c;
     smtp_port := smtp_port c; smtp_username := smtp_username c;
     smtp_password := smtp_password c; smtp_sender := smtp_sender c;
     cors_trustedOrigins := cors_trustedOrigins c |}.
Definition set_env (v : string) (c : config) : config :=
  {| port := port c; env := v; db_dsn := db_dsn c;
     db_maxOpenConns := db_maxOpenConns c;
     db_maxIdleConns := db_maxIdleConns c;
     db_maxIdleTime := db_maxIdleTime c; limiter_rps := limiter_rps c;
     limiter_burst := limiter_burst c;
     limiter_enabled := limiter_enabled c; smtp_host := smtp_host c;
     smtp_port := smtp_port c; smtp_username := smtp_username c;
     smtp_password := smtp_password c; smtp_sender := smtp_sender c;
     cors_trustedOrigins := cors_trustedOrigins c |}.
Definition set_db_dsn (v : string) (c : config) : config :=
  {| port := port c; env := env c; db_dsn := v;
     db_maxOpenConns := db_maxOpenConns c;
     db_maxIdleConns := db_maxIdleConns c;
     db_maxIdleTime := db_maxIdleTime c; limiter_rps := limiter_rps c;
     limiter_burst := limiter_burst c;
     limiter_enabled := limiter_enabled c; smtp_host := smtp_host c;
     smtp_port := smtp_port c; smtp_username := smtp_username c;
     smtp_password := smtp_password c; smtp_sender := smtp_sender c;
     cors_trustedOrigins := cors_trustedOrigins c |}.
Definition set_db_maxOpenConns (v : string) (c : config) : config :=
  {| port := port c; env := env c; db_dsn := db_dsn c;
     db_maxOpenConns := v; db_maxIdleConns := db_maxIdleConns c;
     db_maxIdleTime := db_maxIdleTime c; limiter_rps := limiter_rps c;
     limiter_burst := limiter_burst c;
     limiter_enabled := limiter_enabled c; smtp_host := smtp_host c;
     smtp_port := smtp_port c; smtp_username := smtp_username c;
     smtp_password := smtp_password c; smtp_sender := smtp_sender c;
     cors_trustedOrigins := cors_trustedOrigins c |}.
Definition set_db_maxIdleConns (v : string) (c : config) : config :=
  {| port := port c; env := env c; db_dsn := db_dsn c;
     db_maxOpenConns := db_maxOpenConns c; db_maxIdleConns := v;
     db_maxIdleTime := db_maxIdleTime c; limiter_rps := limiter_rps c;
     limiter_burst := limiter_burst c;
     limiter_enabled := limiter_enabled c; smtp_host := smtp_host c;
     smtp_port := smtp_port c; smtp_username := smtp_username c;
     smtp_password := smtp_password c; smtp_sender := smtp_sender c;
     cors_trustedOrigins := cors_trustedOrigins c |}.
Definition set_db_maxIdleTime (v : string) (c : config) : config :=
  {| port := port c; env := env c; db_dsn := db_dsn c;
     db_maxOpenConns := db_maxOpenConns c;
     db_maxIdleConns := db_maxIdleConns c; db_maxIdleTime := v;
     limiter_rps := limiter_rps c; limiter_burst := limiter_burst c;
     limiter_enabled := limiter_enabled c; smtp_host := smtp_host c;
     smtp_port := smtp_port c; smtp_username := smtp_username c;
     smtp_password := smtp_password c; smtp_sender := smtp_sender c;
     cors_trustedOrigins := cors_trustedOrigins c |}.
Definition set_limiter_rps (v : Z) (c : config) : config :=
  {| port := port c; env := env c; db_dsn := db_dsn c;
     db_maxOpenConns := db_maxOpenConns c;
     db_maxIdleConns := db_maxIdleConns c;
     db_maxIdleTime := db_maxIdleTime c; limiter_rps := v;
     limiter_burst := limiter_burst c;
     limiter_enabled := limiter_enabled c; smtp_host := smtp_host c;
     smtp_port := smtp_port c; smtp_username := smtp_username c;
     smtp_password := smtp_password c; smtp_sender := smtp_sender c;
     cors_trustedOrigins := cors_trustedOrigins c |}.
Definition set_limiter_burst (v : Z) (c : config) : config :=
  {| port := port c; env := env c; db_dsn := db_dsn c;
     db_maxOpenConns := db_maxOpenConns c;
     db_maxIdleConns := db_maxIdleConns c;
     db_maxIdleTime := db_maxIdleTime c; limiter_rps := limiter_rps c;
     limiter_burst := v; limiter_enabled := limiter_enabled c;
     smtp_host := smtp_host c; smtp_port := smtp_port c;
     smtp_username := smtp_username c; smtp_password := smtp_password c;
     smtp_sender := smtp_sender c;
     cors_trustedOrigins := cors_trustedOrigins c |}.
Definition set_limiter_enabled (v : bool) (c : config) : config :=
  {| port := port c; env := env c; db_dsn := db_dsn c;
     db_maxOpenConns := db_maxOpenConns c;
     db_maxIdleConns := db_maxIdleConns c;
     db_maxIdleTime := db_maxIdleTime c; limiter_rps := limiter_rps c;
     limiter_burst := limiter_burst c; limiter_enabled := v;
     smtp_host := smtp_host c; smtp_port := smtp_port c;
     smtp_username := smtp_username c; smtp_password := smtp_password c;
     smtp_sender := smtp_sender c;
     cors_trustedOrigins := cors_trustedOrigins c |}.
Definition set_smtp_host (v : string) (c : config) : config :=
  {| port := port c; env := env c; db_dsn := db_dsn c;
     db_maxOpenConns := db_maxOpenConns c;
     db_maxIdleConns := db_maxIdleConns c;
     db_maxIdleTime := db_maxIdleTime c; limiter_rps := limiter_rps c;
     limiter_burst := limiter_burst c;
     limiter_enabled := limiter_enabled c; smtp_host := v;
     smtp_port := smtp_port c; smtp_username := smtp_username c;
     smtp_password := smtp_password c; smtp_sender := smtp_sender c;
     cors_trustedOrigins := cors_trustedOrigins c |}.
Definition set_smtp_port (v : Z) (c : config) : config :=
  {| port := port c; env := env c; db_dsn := db_dsn c;
     db_maxOpenConns := db_maxOpenConns c;
     db_maxIdleConns := db_maxIdleConns c;
     db_maxIdleTime := db_maxIdleTime c; limiter_rps := limiter_rps c;
     limiter_burst := limiter_burst c;
     limiter_enabled := limiter_enabled c; smtp_host := smtp_host c;
     smtp_port := v; smtp_username := smtp_username c;
     smtp_password := smtp_password c; smtp_sender := smtp_sender c;
     cors_trustedOrigins := cors_trustedOrigins c |}.
Definition set_smtp_username (v : string) (c : config) : config :=
  {| port := port c; env := env c; db_dsn := db_dsn c;
     db_maxOpenConns := db_maxOpenConns c;
     db_maxIdleConns := db_maxIdleConns c;
     db_maxIdleTime := db_maxIdleTime c; limiter_rps := limiter_rps c;
     limiter_burst := limiter_burst c;
     limiter_enabled := limiter_enabled c; smtp_host := smtp_host c;
     smtp_port := smtp_port c; smtp_username := v;
     smtp_password := smtp_password c; smtp_sender := smtp_sender c;
     cors_trustedOrigins := cors_trustedOrigins c |}.
Definition set_smtp_password (v : string) (c : config) : config :=
  {| port := port c; env := env c; db_dsn := db_dsn c;
     db_maxOpenConns := db_maxOpenConns c;
     db_maxIdleConns := db_maxIdleConns c;
     db_maxIdleTime := db_maxIdleTime c; limiter_rps := limiter_rps c;
     limiter_burst := limiter_burst c;
     limiter_enabled := limiter_enabled c; smtp_host := smtp_host c;
     smtp_port := smtp_port c; smtp_username := smtp_username c;
     smtp_password := v; smtp_sender := smtp_sender c;
     cors_trustedOrigins := cors_trustedOrigins c |}.
Definition set_smtp_sender (v : string) (c : config) : config :=
  {| port := port c; env := env c; db_dsn := db_dsn c;
     db_maxOpenConns := db_maxOpenConns c;
     db_maxIdleConns := db_maxIdleConns c;
     db_maxIdleTime := db_maxIdleTime c; limiter_rps := limiter_rps c;
     limiter_burst := limiter_burst c;
     limiter_enabled := limiter_enabled c; smtp_host := smtp_host c;
     smtp_port := smtp_port c; smtp_username := smtp_username c;
     smtp_password := smtp_password c; smtp_sender := v;
     cors_trustedOrigins := cors_trustedOrigins c |}.
Definition set_cors_trustedOrigins (v : list string) (c : config) : config :=
  {| port := port c; env := env c; db_dsn := db_dsn c;
     db_maxOpenConns := db_maxOpenConns c;
     db_maxIdleConns := db_maxIdleConns c;
     db_maxIdleTime := db_maxIdleTime c; limiter_rps := limiter_rps c;
     limiter_burst := limiter_burst c;
     limiter_enabled := limiter_enabled c; smtp_host := smtp_host c;
     smtp_port := smtp_port c; smtp_username := smtp_username c;
     smtp_password := smtp_password c; smtp_sender := smtp_sender c;
     cors_trustedOrigins := v |}.

(** [*sql.DB]: the connection string the pool was opened with and the
    limits last handed to [SetMaxOpenConns], [SetMaxIdleConns] and
    [SetConnMaxIdleTime] (a duration, in nanoseconds). *)
Record DB : Type := {
  dsn : string;
  maxOpen : Z;
  maxIdle : Z;
  maxIdleTime : Z
}.

(** [sql.DBStats], the fields the diagnostics report. *)
Record DBStats : Type := {
  MaxOpenConnections : Z;
  OpenConnections : Z;
  InUse : Z;
  Idle : Z;
  WaitCount : Z
}.

(** [mailer.Mailer] as built by [mailer.New(host, port, username, password,
    sender)]. *)
Record Mailer : Type := {
  m_host : string;
  m_port : Z;
  m_username : string;
  m_password : string;
  m_sender : string
}.

(** [type application struct].  [models] is [data.NewModels(db)], which
    wraps the handle; [wg] is the counter of the wait group; the logger
    writes to the trace below. *)
Record application : Type := {
  app_config : config;
  models : option DB;
  mailer : Mailer;
  wg : Z
}.

(** What lies outside the program: the [.env] file as [godotenv] reads it
    ([None] when it cannot be loaded), the environment and the arguments
    of the process, and the answers of the database driver and of the
    server loop ([app.serve], in another file of the package). *)
Record World : Type := {
  dotenv : option (gmap string string);
  environ : gmap string string;
  args : list string;
  sqlOpen : string -> option error;
  ping : DB -> Z -> option error;
  serve : application -> option error
}.

(** The state the diagnostics read: it changes while the process runs. *)
Record runtime : Type := {
  NumGoroutine : Z;
  Stats : DB -> DBStats;
  Now : Z
}.

(** Go's [any], for the values the diagnostics return;
    [NilDereference] is the panic of a method call on a [nil] handle. *)
Inductive any : Type :=
| AnyInt (n : Z)
| AnyString (s : string)
| AnyStats (s : DBStats)
| NilDereference.

(** [expvar.Var]: a [*expvar.String] holds a value, an [expvar.Func] holds
    a function that is called when the variable is read. *)
Inductive Var : Type :=
| VarString (s : string)
| VarFunc (f : runtime -> any).

(** [flag.Value]: [Set] parses the text of a flag and stores it through
    the pointer the flag was defined with. *)
Record Value : Type := {
  vSet : string -> config -> config * option error;
  IsBoolFlag : bool
}.

(** The errors [flag.Parse] reports (with the usage text) before it ends
    the process. *)
Inductive flagError : Type :=
| BadSyntax (s : string)
| NotDefined (name : string)
| ErrHelp
| InvalidBoolean (value name : string) (e : error)
| NeedsArgument (name : string)
| InvalidValue (value name : string) (e : error).

(** What the process does that can be observed, in order. *)
Inductive event : Type :=
| EFatal (msg : string)
| EFlagVar (name : string)
| EFlagParse (arguments : list string)
| EFlagError (e : flagError)
| ESqlOpen (driver dsn : string)
| ESetMaxOpenConns (n : Z)
| ESetMaxIdleConns (n : Z)
| ESetConnMaxIdleTime (d : Z)
| EPingContext (timeout : Z)
| EPrintInfo (msg : string)
| EPrintFatal (err : error)
| EPublish (name : string)
| EServe (app : application)
| EClose.

(** The mutable state of the process: the variable [cfg] of [main], the
    flags defined on [flag.CommandLine] and those set by the command line,
    the registry of [expvar], and the trace of events so far. *)
Record state : Type := {
  cfg : config;
  formal : gmap string Value;
  actual : gset string;
  vars : gmap string Var;
  trace : list event
}.

Definition initial : state :=
  {| cfg := zero_config; formal := ∅; actual := ∅; vars := ∅;
     trace := [] |}.

Definition emit (e : event) (s : state) : state :=
  {| cfg := cfg s; formal := formal s; actual := actual s; vars := vars s;
     trace := trace s ++ [e] |}.

(** ** The monad of the process *)

(** A computation ends normally, or ends the process ([os.Exit]), or
    panics. *)
Inductive result (A : Type) : Type :=
| Done (a : A)
| Exit (code : Z)
| Panic.
Arguments Done {A} a.
Arguments Exit {A} code.
Arguments Panic {A}.

Definition M (A : Type) : Type := state -> result A * state.

Definition ret {A} (a : A) : M A := fun s => (Done a, s).

Definition bind {A B} (m : M A) (k : A -> M B) : M B :=
  fun s =>
    match m s with
    | (Done a, s') => k a s'
    | (Exit code, s') => (Exit code, s')
    | (Panic, s') => (Panic, s')
    end.

Notation "x <- c1 ;; c2" := (bind c1 (fun x => c2))
  (at level 100, c1 at next level, right associativity).
Notation "c1 ;; c2" := (bind c1 (fun _ => c2))
  (at level 100, right associativity).

Definition log (e : event) : M unit := fun s => (Done tt, emit e s).

(** [os.Exit] *)
Definition os_Exit {A} (code : Z) : M A := fun s => (Exit code, s).

(** [log.Fatal]: print on the standard logger, then [os.Exit(1)]. *)
Definition log_Fatal {A} (msg : string) : M A :=
  log (EFatal msg);; os_Exit 1.

(** Modelled from the spec: [internal/jsonlog] is not among the sources.
    [PrintInfo] writes an entry; [PrintFatal] writes the error as a fatal
    entry and ends the process with a non-zero status, [1]. *)
Definition PrintInfo (msg : string) : M unit := log (EPrintInfo msg).
Definition PrintFatal {A} (err : error) : M A :=
  log (EPrintFatal err);; os_Exit 1.

(** ** The environment *)

(** [os.Getenv]: the value of the variable, empty when it is not set. *)
Definition Getenv (os : gmap string string) (key : string) : string :=
  default EmptyString (os !! key).

(** [godotenv.Load(".env")]: an error when the file cannot be read or
    parsed; otherwise every variable of the file that the environment does
    not have yet is set. *)
Definition godotenv_Load (w : World) : gmap string string * option error :=
  match dotenv w with
  | None => (environ w, Some ErrDotenv)
  | Some file => (environ w ∪ file, None)
  end.

(** [func init()] (lines 59-65).  The result is the environment [main]
    runs in. *)
Definition init (w : World) : M (gmap string string) :=
  let '(os, err) := godotenv_Load w in
  match err with
  | Some _ => log_Fatal "Error loading .env file"
  | None => ret os
  end.

(** [func getEnv(env string, value string) string] (lines 133-138) *)
Definition getEnv (os : gmap string string) (name value : string) : string :=
  let v := Getenv os name in
  if negb (String.eqb v EmptyString) then v else value.

(** [func getIntEnv(env string, value int) int] (lines 140-150) *)
Definition getIntEnv (os : gmap string string) (name : string) (value : Z)
    : M Z :=
  let v := Getenv os name in
  if String.eqb v EmptyString then ret value
  else
    let '(n, err) := strconv.Atoi v in
    match err with
    | Some _ => log_Fatal "failed to parse int env variable"
    | None => ret n
    end.

(** [func getBoolEnv(env string, value bool) bool] (lines 152-162) *)
Definition getBoolEnv (os : gmap string string) (name : string) (value : bool)
    : M bool :=
  let v := Getenv os name in
  if String.eqb v EmptyString then ret value
  else
    let '(b, err) := strconv.ParseBool v in
    match err with
    | Some _ => log_Fatal "failed to parse bool env variable"
    | None => ret b
    end.

(** ** Package [flag] *)

Module flag.

(** [name] up to its first [=] that is not its first byte, and the text
    after it. *)
Fixpoint cut (name : string) : string * option string :=
  match name with
  | EmptyString => (EmptyString, None)
  | String c r =>
      if Ascii.eqb c "=" then (EmptyString, Some r)
      else let '(n, v) := cut r in (String c n, v)
  end.

Definition splitValue (name : string) : string * option string :=
  match name with
  | EmptyString => (EmptyString, None)
  | String c r => let '(n, v) := cut r in (String c n, v)
  end.

(** The first half of [parseOne]: what kind of argument [s] is. *)
Inductive token : Type :=
| NotAFlag
| Terminator
| Malformed
| Flag (name : string) (value : option string).

Definition scan (s : string) : token :=
  match s with
  | String "-" (String c1 r1) =>
      let twoMinuses := Ascii.eqb c1 "-" in
      if twoMinuses && String.eqb r1 EmptyString then Terminator
      else
        let name := if twoMinuses then r1 else String c1 r1 in
        match name with
        | EmptyString => Malformed
        | String n0 _ =>
            if Ascii.eqb n0 "-" || Ascii.eqb n0 "=" then Malformed
            else let '(n, v) := splitValue name in Flag n v
        end
  | _ => NotAFlag
  end.

(** [FlagSet.Parse] over [parseOne]: the flags are read from left to
    right until the first argument that is not a flag, or the
    terminator, or an error.  The result is the error if there is one,
    the configuration after the [Set] calls, and the set of the flags
    that were given. *)
Fixpoint parse (formal : gmap string Value) (arguments : list string)
    (c : config) (actual : gset string)
    : option flagError * config * gset string :=
  match arguments with
  | [] => (None, c, actual)
  | s :: rest =>
      match scan s with
      | NotAFlag | Terminator => (None, c, actual)
      | Malformed => (Some (BadSyntax s), c, actual)
      | Flag name value =>
          match formal !! name with
          | None =>
              if String.eqb name "help" || String.eqb name "h"
              then (Some ErrHelp, c, actual)
              else (Some (NotDefined name), c, actual)
          | Some fv =>
              if IsBoolFlag fv then
                let text := default "true" value in
                let '(c', err) := vSet fv text c in
                match err with
                | Some e => (Some (InvalidBoolean text name e), c', actual)
                | None => parse formal rest c' ({[name]} ∪ actual)
                end
              else
                match value with
                | Some text =>
                    let '(c', err) := vSet fv text c in
                    match err with
                    | Some e => (Some (InvalidValue text name e), c', actual)
                    | None => parse formal rest c' ({[name]} ∪ actual)
                    end
                | None =>
                    match rest with
                    | [] => (Some (NeedsArgument name), c, actual)
                    | text :: rest' =>
                        let '(c', err) := vSet fv text c in
                        match err with
                        | Some e =>
                            (Some (InvalidValue text name e), c', actual)
                        | None => parse formal rest' c' ({[name]} ∪ actual)
                        end
                    end
                end
          end
      end
  end.

(** The values behind [StringVar], [IntVar], [BoolVar] and [Func]. *)
Definition stringValue (p : string -> config -> config) : Value :=
  {| vSet := fun s c => (p s c, None); IsBoolFlag := false |}.

Definition intValue (p : Z -> config -> config) : Value :=
  {| vSet := fun s c =>
               let '(v, err) := strconv.ParseInt s 0 in (p v c, err);
     IsBoolFlag := false |}.

Definition boolValue (p : bool -> config -> config) : Value :=
  {| vSet := fun s c =>
               let '(v, err) := strconv.ParseBool s in (p v c, err);
     IsBoolFlag := true |}.

Definition funcValue (fn : string -> config -> config * option error)
    : Value :=
  {| vSet := fn; IsBoolFlag := false |}.

(** [*p = value] *)
Definition assign (f : config -> config) : M unit :=
  fun s =>
    (Done tt,
     {| cfg := f (cfg s); formal := formal s; actual := actual s;
        vars := vars s; trace := trace s |}).

(** [FlagSet.Var]: defining a name twice panics. *)
Definition Var (v : Value) (name : string) : M unit :=
  fun s =>
    match formal s !! name with
    | Some _ => (Panic, s)
    | None =>
        (Done tt,
         {| cfg := cfg s; formal := <[name := v]> (formal s);
            actual := actual s; vars := vars s;
            trace := trace s ++ [EFlagVar name] |})
    end.

Definition StringVar (p : string -> config -> config) (name value : string)
    : M unit :=
  assign (p value);; Var (stringValue p) name.

Definition IntVar (p : Z -> config -> config) (name : string) (value : Z)
    : M unit :=
  assign (p value);; Var (intValue p) name.

Definition BoolVar (p : bool -> config -> config) (name : string)
    (value : bool) : M unit :=
  assign (p value);; Var (boolValue p) name.

Definition Func (name : string)
    (fn : string -> config -> config * option error) : M unit :=
  Var (funcValue fn) name.

(** [flag.Parse()] on [flag.CommandLine], whose error handling is
    [ExitOnError]: status 0 after [-h] or [-help], status 2 after any
    other error. *)
Definition Parse (arguments : list string) : M unit :=
  fun s =>
    let '(err, c, act) := parse (formal s) arguments (cfg s) (actual s) in
    let s' := {| cfg := c; formal := formal s; actual := act;
                 vars := vars s;
                 trace := trace s ++ [EFlagParse arguments] |} in
    match err with
    | None => (Done tt, s')
    | Some ErrHelp => (Exit 0, emit (EFlagError ErrHelp) s')
    | Some e => (Exit 2, emit (EFlagError e) s')
    end.

End flag.

(** ** Configuration (lines 68-93 of [main]) *)

(** The function literal of lines 88-91.  It does not read its argument
    [val]. *)
Definition corsFunc (os : gmap string string) (val : string) (c : config)
    : config * option error :=
  (set_cors_trustedOrigins
     (strings.Split (getEnv os "CORS_TRUSTED_ORIGIN" "*") ",") c, None).

(** Lines 70-91: the flag definitions in the order of the source, each
    with its default computed from the environment [os] first. *)
Definition defineFlags (os : gmap string string) : M unit :=
  flag.StringVar set_port "port" (getEnv os "PORT" "4000");;
  flag.StringVar set_env "env" (getEnv os "ENVIRONMENT" "development");;
  flag.StringVar set_db_dsn "db-dsn" (Getenv os "GREENLIGHT_DB_DSN");;
  flag.StringVar set_db_maxOpenConns "db-max-open-conns"
    (getEnv os "DB_MAX_IDLE_TIME" "25");;
  flag.StringVar set_db_maxIdleConns "db-max-idle-conns"
    (getEnv os "DB_MAX_IDLE_TIME" "25");;
  flag.StringVar set_db_maxIdleTime "db-max-idle-time"
    (getEnv os "DB_MAX_IDLE_TIME" "15m");;
  rps <- getIntEnv os "LIMITER_RPS" 2;;
  flag.IntVar set_limiter_rps "limiter-rps" rps;;
  burst <- getIntEnv os "LIMITER_BURST" 4;;
  flag.IntVar set_limiter_burst "limiter-burst" burst;;
  enabled <- getBoolEnv os "LIMITER_ENABLED" true;;
  flag.BoolVar set_limiter_enabled "limiter-enabled" enabled;;
  flag.StringVar set_smtp_host "smtp-host" (getEnv os "SMTP_HOST" EmptyString);;
  smtpPort <- getIntEnv os "SMTP_PORT" 25;;
  flag.IntVar set_smtp_port "smtp-port" smtpPort;;
  flag.StringVar set_smtp_username "smtp-username"
    (getEnv os "SMTP_USERNAME" EmptyString);;
  flag.StringVar set_smtp_password "smtp-password"
    (getEnv os "SMTP_PASSWORD" EmptyString);;
  flag.StringVar set_smtp_sender "smtp-sender" (getEnv os "SMTP_SENDER" "15m");;
  flag.Func "cors-trusted-origins" (corsFunc os).

(** Lines 68-93: [var cfg config], the flag definitions, [flag.Parse()].
    The result is [cfg] as the rest of [main] reads it. *)
Definition configure (os : gmap string string) (arguments : list string)
    : M config :=
  defineFlags os;;
  flag.Parse arguments;;
  fun s => (Done (cfg s), s).

(** ** Package [database/sql] *)

Module sql.

(** [sql.Open(driverName, dataSourceName)]: a handle or an error, as
    the driver decides. *)
Definition Open (w : World) (driverName dataSourceName : string)
    : M (DB + error) :=
  log (ESqlOpen driverName dataSourceName);;
  match sqlOpen w dataSourceName with
  | Some e => ret (inr e)
  | None =>
      ret (inl {| dsn := dataSourceName; maxOpen := 0; maxIdle := 0;
                  maxIdleTime := 0 |})
  end.

Definition SetMaxOpenConns (db : DB) (n : Z) : M DB :=
  log (ESetMaxOpenConns n);;
  ret {| dsn := dsn db; maxOpen := n; maxIdle := maxIdle db;
         maxIdleTime := maxIdleTime db |}.

Definition SetMaxIdleConns (db : DB) (n : Z) : M DB :=
  log (ESetMaxIdleConns n);;
  ret {| dsn := dsn db; maxOpen := maxOpen db; maxIdle := n;
         maxIdleTime := maxIdleTime db |}.

Definition SetConnMaxIdleTime (db : DB) (d : Z) : M DB :=
  log (ESetConnMaxIdleTime d);;
  ret {| dsn := dsn db; maxOpen := maxOpen db; maxIdle := maxIdle db;
         maxIdleTime := d |}.

(** [db.PingContext(ctx)]; [timeout] is the time [ctx] allows. *)
Definition PingContext (w : World) (db : DB) (timeout : Z)
    : M (option error) :=
  log (EPingContext timeout);; ret (ping w db timeout).

(** [db.Close()]; on a [nil] handle the call panics. *)
Definition Close (db : option DB) : M unit :=
  match db with
  | Some _ => log EClose
  | None => fun s => (Panic, s)
  end.

End sql.

(** ** Package [expvar] *)

Module expvar.

(** [expvar.Publish]: a name that is taken panics. *)
Definition Publish (name : string) (v : Var) : M unit :=
  fun s =>
    match vars s !! name with
    | Some _ => (Panic, s)
    | None =>
        (Done tt,
         {| cfg := cfg s; formal := formal s; actual := actual s;
            vars := <[name := v]> (vars s);
            trace := trace s ++ [EPublish name] |})
    end.

(** [expvar.NewString(name)] publishes an empty string variable;
    [Set] on the variable it returns stores a value in it. *)
Definition NewString (name : string) : M string :=
  Publish name (VarString EmptyString);; ret name.

Definition String_Set (name value : string) : M unit :=
  fun s =>
    (Done tt,
     {| cfg := cfg s; formal := formal s; actual := actual s;
        vars := <[name := VarString value]> (vars s); trace := trace s |}).

(** Reading a published variable at a moment of the run. *)
Definition read (v : Var) (now : runtime) : any :=
  match v with
  | VarString s => AnyString s
  | VarFunc f => f now
  end.

Definition poll (registry : gmap string Var) (name : string) (now : runtime)
    : option any :=
  (fun v => read v now) <$> registry !! name.

End expvar.

(** [time.Second], in nanoseconds. *)
Definition Second : Z := 1000000000.

(** [const version] *)
Definition version : string := "1.0.0".

Section Program.

(** [time.ParseDuration] converts fractions through floating point; it
    is left as a parameter of the program. *)
Variable ParseDuration : string -> Z * option error.

Variable w : World.

(** [func openDB(cfg config)] (lines 164-192), which returns a handle
    and an error; [None] is the [nil] handle.  The deferred [cancel] of
    the context has no effect that is observed. *)
Definition openDB (cfg : config) : M (option DB * option error) :=
  r <- sql.Open w "postgres" (db_dsn cfg);;
  match r with
  | inr err => ret (None, Some err)
  | inl db =>
      let '(maxOpenCon, _) := strconv.Atoi (db_maxOpenConns cfg) in
      let '(maxIdleCon, _) := strconv.Atoi (db_maxIdleConns cfg) in
      db <- sql.SetMaxOpenConns db maxOpenCon;;
      db <- sql.SetMaxIdleConns db maxIdleCon;;
      let '(duration, err) := ParseDuration (db_maxIdleTime cfg) in
      match err with
      | Some err => ret (None, Some err)
      | None =>
          db <- sql.SetConnMaxIdleTime db duration;;
          err <- sql.PingContext w db (5 * Second);;
          match err with
          | Some err => ret (None, Some err)
          | None => ret (Some db, None)
          end
      end
  end.

(** Lines 105-117 of [main]: the diagnostics. *)
Definition publish (db : option DB) : M unit :=
  v <- expvar.NewString "version";;
  expvar.String_Set v version;;
  expvar.Publish "goroutines"
    (VarFunc (fun now => AnyInt (NumGoroutine now)));;
  expvar.Publish "database"
    (VarFunc (fun now =>
                match db with
                | Some d => AnyStats (Stats now d)
                | None => NilDereference
                end));;
  expvar.Publish "timestamp" (VarFunc (fun now => AnyInt (Now now))).

(** [application] as [main] builds it. *)
Definition app_of (c : config) (db : option DB) : application :=
  {| app_config := c; models := db;
     mailer := {| m_host := smtp_host c; m_port := smtp_port c;
                  m_username := smtp_username c;
                  m_password := smtp_password c;
                  m_sender := smtp_sender c |};
     wg := 0 |}.

(** Lines 95-130 of [main], after the configuration.  [app.serve] is in
    another file: its run is one event and its error is the world's.
    [db.Close] is deferred: it runs when [main] returns, not when the
    process is ended by [os.Exit]. *)
Definition start (cfg : config) : M unit :=
  r <- openDB cfg;;
  let '(db, err) := r in
  match err with Some e => PrintFatal e | None => ret tt end;;
  PrintInfo "database connection pool established";;
  publish db;;
  log (EServe (app_of cfg db));;
  match serve w (app_of cfg db) with
  | Some e => PrintFatal e
  | None => ret tt
  end;;
  sql.Close db.

(** [func main()] (lines 67-131), in the environment [os] that [init]
    leaves. *)
Definition main (os : gmap string string) : M unit :=
  cfg <- configure os (args w);; start cfg.

(** The process: [init], then [main], from the initial state. *)
Definition program : result unit * state :=
  (os <- init w;; main os) initial.

End Program.

(** ** The background task tracker *)

Module tracker.

(** Modelled from the spec: the helper that runs background work on
    [application.wg] is in another file of the package.  Following
    section 4.4 of the specification: submitting a unit of work increments
    the outstanding count before the work is launched; when the work
    ends, normally or by an internal failure, the count is decremented
    once and a failure is reported to the log; the drain wait returns
    when the count is zero.  [running] is the set of the launched units
    that have not ended. *)
Inductive outcome : Type :=
| Finished
| Failed (reason : string).

(** Modelled from the spec: the tracker, its outstanding count, the
    units that run, and the failures reported so far. *)
Record Tracker : Type := {
  outstanding : Z;
  running : gset nat;
  reports : list (nat * string)
}.

(** Modelled from the spec: the tracker of a process that starts. *)
Definition empty : Tracker :=
  {| outstanding := 0; running := ∅; reports := [] |}.

(** Modelled from the spec: the two things that happen to the tracker,
    the submission of a unit and the end of a unit with its outcome. *)
Inductive action : Type :=
| Submit (id : nat)
| Complete (id : nat) (o : outcome).

(** Modelled from the spec: one step of the tracker.  A unit that runs
    cannot be submitted again, and only a unit that runs can end. *)
Definition step (t : Tracker) (a : action) : option Tracker :=
  match a with
  | Submit id =>
      if decide (id ∈ running t) then None
      else Some {| outstanding := outstanding t + 1;
                   running := {[id]} ∪ running t;
                   reports := reports t |}
  | Complete id o =>
      if decide (id ∈ running t) then
        Some {| outstanding := outstanding t - 1;
                running := running t ∖ {[id]};
                reports := match o with
                           | Finished => reports t
                           | Failed reason => reports t ++ [(id, reason)]
                           end |}
      else None
  end.

(** Modelled from the spec: a schedule is the submissions and the
    completions in the order they happen, whatever the interleaving of
    the units. *)
Fixpoint run (t : Tracker) (schedule : list action) : option Tracker :=
  match schedule with
  | [] => Some t
  | a :: schedule' =>
      match step t a with
      | Some t' => run t' schedule'
      | None => None
      end
  end.

(** Modelled from the spec: the drain wait returns when the count is
    zero. *)
Definition drained (t : Tracker) : bool := Z.eqb (outstanding t) 0.

(** The numbers of submissions and of completions in a schedule. *)
Fixpoint submissions (schedule : list action) : nat :=
  match schedule with
  | [] => 0
  | Submit _ :: schedule' => S (submissions schedule')
  | Complete _ _ :: schedule' => submissions schedule'
  end.

Fixpoint completions (schedule : list action) : nat :=
  match schedule with
  | [] => 0
  | Submit _ :: schedule' => completions schedule'
  | Complete _ _ :: schedule' => S (completions schedule')
  end.

End tracker.

(** * The vocabulary of the statements *)

(** ** The typed environment lookups as values *)

(** The value [getIntEnv] returns, [None] when it ends the process. *)
Definition envInt (os : gmap string string) (name : string) (value : Z)
    : option Z :=
  let v := Getenv os name in
  if String.eqb v EmptyString then Some value
  else match strconv.Atoi v with
       | (n, None) => Some n
       | (_, Some _) => None
       end.

Definition envBool (os : gmap string string) (name : string) (value : bool)
    : option bool :=
  let v := Getenv os name in
  if String.eqb v EmptyString then Some value
  else match strconv.ParseBool v with
       | (b, None) => Some b
       | (_, Some _) => None
       end.

(** The four typed lookups of the flag definitions, in the order of the
    source; [None] when one of them ends the process. *)
Definition typedEnv (os : gmap string string) : option (Z * Z * bool * Z) :=
  match envInt os "LIMITER_RPS" 2 with
  | None => None
  | Some rps =>
      match envInt os "LIMITER_BURST" 4 with
      | None => None
      | Some burst =>
          match envBool os "LIMITER_ENABLED" true with
          | None => None
          | Some enabled =>
              match envInt os "SMTP_PORT" 25 with
              | None => None
              | Some smtpPort => Some (rps, burst, enabled, smtpPort)
              end
          end
      end
  end.

Definition fatalMessages : list string :=
  ["failed to parse int env variable"; "failed to parse bool env variable"].

Definition isError (e : option error) : bool :=
  match e with Some _ => true | None => false end.

(** A value that is present and that the typed parse rejects. *)
Definition malformedInt (v : string) : bool :=
  negb (String.eqb v EmptyString) && isError (strconv.Atoi v).2.

Definition malformedBool (v : string) : bool :=
  negb (String.eqb v EmptyString) && isError (strconv.ParseBool v).2.

Definition malformedEnvironment (os : gmap string string) : bool :=
  malformedInt (Getenv os "LIMITER_RPS")
  || malformedInt (Getenv os "LIMITER_BURST")
  || malformedBool (Getenv os "LIMITER_ENABLED")
  || malformedInt (Getenv os "SMTP_PORT").

(** ** The state after the flag definitions *)

Definition names : list string :=
  ["port"; "env"; "db-dsn"; "db-max-open-conns"; "db-max-idle-conns";
   "db-max-idle-time"; "limiter-rps"; "limiter-burst"; "limiter-enabled";
   "smtp-host"; "smtp-port"; "smtp-username"; "smtp-password";
   "smtp-sender"; "cors-trusted-origins"].

(** [cfg] once every flag is defined: each field holds its default. *)
Definition defaults (os : gmap string string) (rps burst : Z) (enabled : bool)
    (smtpPort : Z) : config :=
  {| port := getEnv os "PORT" "4000";
     env := getEnv os "ENVIRONMENT" "development";
     db_dsn := Getenv os "GREENLIGHT_DB_DSN";
     db_maxOpenConns := getEnv os "DB_MAX_IDLE_TIME" "25";
     db_maxIdleConns := getEnv os "DB_MAX_IDLE_TIME" "25";
     db_maxIdleTime := getEnv os "DB_MAX_IDLE_TIME" "15m";
     limiter_rps := rps;
     limiter_burst := burst;
     limiter_enabled := enabled;
     smtp_host := getEnv os "SMTP_HOST" EmptyString;
     smtp_port := smtpPort;
     smtp_username := getEnv os "SMTP_USERNAME" EmptyString;
     smtp_password := getEnv os "SMTP_PASSWORD" EmptyString;
     smtp_sender := getEnv os "SMTP_SENDER" "15m";
     cors_trustedOrigins := [] |}.

(** The flags of [flag.CommandLine] once every flag is defined. *)
Definition flags (os : gmap string string) : gmap string Value :=
  <["cors-trusted-origins" := flag.funcValue (corsFunc os)]>
  (<["smtp-sender" := flag.stringValue set_smtp_sender]>
  (<["smtp-password" := flag.stringValue set_smtp_password]>
  (<["smtp-username" := flag.stringValue set_smtp_username]>
  (<["smtp-port" := flag.intValue set_smtp_port]>
  (<["smtp-host" := flag.stringValue set_smtp_host]>
  (<["limiter-enabled" := flag.boolValue set_limiter_enabled]>
  (<["limiter-burst" := flag.intValue set_limiter_burst]>
  (<["limiter-rps" := flag.intValue set_limiter_rps]>
  (<["db-max-idle-time" := flag.stringValue set_db_maxIdleTime]>
  (<["db-max-idle-conns" := flag.stringValue set_db_maxIdleConns]>
  (<["db-max-open-conns" := flag.stringValue set_db_maxOpenConns]>
  (<["db-dsn" := flag.stringValue set_db_dsn]>
  (<["env" := flag.stringValue set_env]>
  (<["port" := flag.stringValue set_port]> ∅)))))))))))))).

Definition defined (os : gmap string string) (rps burst : Z) (enabled : bool)
    (smtpPort : Z) : state :=
  {| cfg := defaults os rps burst enabled smtpPort; formal := flags os;
     actual := ∅; vars := ∅; trace := map EFlagVar names |}.

(** ** The command line *)

(** A flag is given by an argument list when some argument names it. *)
Definition namesFlag (name a : string) : bool :=
  match flag.scan a with
  | flag.Flag n _ => String.eqb n name
  | _ => false
  end.

Definition given (name : string) (arguments : list string) : bool :=
  existsb (namesFlag name) arguments.

(** The outcome of [flag.Parse] for an error of [parse]. *)
Definition parseOutcome (e : option flagError) (c : config) : result config :=
  match e with
  | None => Done c
  | Some ErrHelp => Exit 0
  | Some _ => Exit 2
  end.

Definition parseEvents (arguments : list string) (e : option flagError)
    : list event :=
  EFlagParse arguments ::
  match e with None => [] | Some e => [EFlagError e] end.

(** The state after [configure]. *)
Definition configured (os : gmap string string) (arguments : list string)
    (e : option flagError) (c : config) (act : gset string) : state :=
  {| cfg := c; formal := flags os; actual := act; vars := ∅;
     trace := map EFlagVar names ++ parseEvents arguments e |}.

(** [init], then lines 68-93 of [main]: the run that resolves the
    configuration, and its result. *)
Definition configuration (w : World) : result config * state :=
  (os <- init w;; configure os (args w)) initial.

Definition resolve (w : World) : result config := (configuration w).1.

(** ** The settings *)

(** The fifteen settings, each with the name of its flag and its field of
    [config]. *)
Inductive setting : Type :=
| Port | Env | DbDsn | DbMaxOpenConns | DbMaxIdleConns | DbMaxIdleTime
| LimiterRps | LimiterBurst | LimiterEnabled
| SmtpHost | SmtpPort | SmtpUsername | SmtpPassword | SmtpSender
| CorsTrustedOrigins.

Inductive value : Type :=
| Text (s : string)
| Int (n : Z)
| Bool (b : bool)
| Texts (l : list string).

Definition flagName (x : setting) : string :=
  match x with
  | Port => "port" | Env => "env" | DbDsn => "db-dsn"
  | DbMaxOpenConns => "db-max-open-conns"
  | DbMaxIdleConns => "db-max-idle-conns"
  | DbMaxIdleTime => "db-max-idle-time"
  | LimiterRps => "limiter-rps" | LimiterBurst => "limiter-burst"
  | LimiterEnabled => "limiter-enabled"
  | SmtpHost => "smtp-host" | SmtpPort => "smtp-port"
  | SmtpUsername => "smtp-username" | SmtpPassword => "smtp-password"
  | SmtpSender => "smtp-sender"
  | CorsTrustedOrigins => "cors-trusted-origins"
  end.

Definition field (x : setting) (c : config) : value :=
  match x with
  | Port => Text (port c) | Env => Text (env c) | DbDsn => Text (db_dsn c)
  | DbMaxOpenConns => Text (db_maxOpenConns c)
  | DbMaxIdleConns => Text (db_maxIdleConns c)
  | DbMaxIdleTime => Text (db_maxIdleTime c)
  | LimiterRps => Int (limiter_rps c) | LimiterBurst => Int (limiter_burst c)
  | LimiterEnabled => Bool (limiter_enabled c)
  | SmtpHost => Text (smtp_host c) | SmtpPort => Int (smtp_port c)
  | SmtpUsername => Text (smtp_username c)
  | SmtpPassword => Text (smtp_password c)
  | SmtpSender => Text (smtp_sender c)
  | CorsTrustedOrigins => Texts (cors_trustedOrigins c)
  end.

(** What a flag makes of its text. *)
Definition flagValue (os : gmap string string) (x : setting) (text : string)
    : value :=
  match x with
  | LimiterRps | LimiterBurst | SmtpPort => Int (strconv.ParseInt text 0).1
  | LimiterEnabled => Bool (strconv.ParseBool text).1
  | CorsTrustedOrigins =>
      Texts (strings.Split (getEnv os "CORS_TRUSTED_ORIGIN" "*") ",")
  | _ => Text text
  end.

(** The error with which a flag rejects its text. *)
Definition flagRejects (x : setting) (text : string) : option error :=
  match x with
  | LimiterRps | LimiterBurst | SmtpPort => (strconv.ParseInt text 0).2
  | LimiterEnabled => (strconv.ParseBool text).2
  | _ => None
  end.

(** ** Traces *)

(** [s] with the events [evs] added to its trace. *)
Definition extend (s : state) (evs : list event) : state :=
  {| cfg := cfg s; formal := formal s; actual := actual s; vars := vars s;
     trace := trace s ++ evs |}.

(** The applications handed to [app.serve] in a trace. *)
Fixpoint served (tr : list event) : list application :=
  match tr with
  | [] => []
  | EServe app :: tr' => app :: served tr'
  | _ :: tr' => served tr'
  end.

(** The liveness checks in a trace. *)
Fixpoint pings (tr : list event) : list Z :=
  match tr with
  | [] => []
  | EPingContext timeout :: tr' => timeout :: pings tr'
  | _ :: tr' => pings tr'
  end.

(** Events that come before the pool is handed to [main]. *)
Definition early (e : event) : Prop :=
  match e with
  | EPrintInfo _ | EPublish _ | EServe _ | EClose => False
  | _ => True
  end.

(** ** The pool and the events of [main] *)

Section Pool.

Variable ParseDuration : string -> Z * option error.
Variable w : World.

(** The handle [openDB] configures. *)
Definition pool (cfg : config) : DB :=
  {| dsn := db_dsn cfg;
     maxOpen := (strconv.Atoi (db_maxOpenConns cfg)).1;
     maxIdle := (strconv.Atoi (db_maxIdleConns cfg)).1;
     maxIdleTime := (ParseDuration (db_maxIdleTime cfg)).1 |}.

(** The events of [openDB] up to the parsing of the idle time. *)
Definition opening (cfg : config) : list event :=
  [ESqlOpen "postgres" (db_dsn cfg);
   ESetMaxOpenConns (strconv.Atoi (db_maxOpenConns cfg)).1;
   ESetMaxIdleConns (strconv.Atoi (db_maxIdleConns cfg)).1].

Definition checking (cfg : config) : list event :=
  [ESetConnMaxIdleTime (ParseDuration (db_maxIdleTime cfg)).1;
   EPingContext (5 * Second)].

(** The registry once the diagnostics are published. *)
Definition published (db : option DB) : gmap string Var :=
  <["timestamp" := VarFunc (fun now => AnyInt (Now now))]>
  (<["database" :=
       VarFunc (fun now =>
                  match db with
                  | Some d => AnyStats (Stats now d)
                  | None => NilDereference
                  end)]>
  (<["goroutines" := VarFunc (fun now => AnyInt (NumGoroutine now))]>
  (<["version" := VarString version]>
  (<["version" := VarString EmptyString]> ∅)))).

Definition publishing : list event :=
  [EPublish "version"; EPublish "goroutines"; EPublish "database";
   EPublish "timestamp"].

(** The end of [main]: the outcome of [app.serve] and the last event. *)
Definition ending (app : application) : result unit * list event :=
  match serve w app with
  | Some e => (Exit 1, [EPrintFatal e])
  | None => (Done tt, [EClose])
  end.

(** The events of [main] after the configuration when the pool opens. *)
Definition serving (c : config) : list event :=
  opening c ++ checking c
  ++ [EPrintInfo "database connection pool established"]
  ++ publishing
  ++ [EServe (app_of c (Some (pool c)))]
  ++ (ending (app_of c (Some (pool c)))).2.

End Pool.

(** ** Example worlds *)

(** A duration parser for the examples: it knows the default idle time of
    the source and rejects every other text. *)
Definition quarterHour (s : string) : Z * option error :=
  if String.eqb s "15m" then (15 * 60 * Second, None)
  else (0, Some (ErrDuration s)).

(** A world whose database and server answer without error. *)
Definition world (file : option (gmap string string))
    (e : gmap string string) (a : list string) : World :=
  {| dotenv := file; environ := e; args := a;
     sqlOpen := fun _ => None; ping := fun _ _ => None;
     serve := fun _ => None |}.

(** The world of the examples: an empty [.env] file, an empty
    environment, no arguments. *)
Definition plainWorld : World := world (Some ∅) ∅ [].

(** A moment of the run, for reading the diagnostics. *)
Definition moment (goroutines inUse now : Z) : runtime :=
  {| NumGoroutine := goroutines;
     Stats := fun d => {| MaxOpenConnections := maxOpen d;
                          OpenConnections := inUse; InUse := inUse;
                          Idle := 0; WaitCount := 0 |};
     Now := now |}.

(** ** Command lines of assignments *)

(** The argument [-name=text] for the flag of the setting [x]. *)
Definition assignment (x : setting) (text : string) : string :=
  String "-" (flagName x +:+ String "=" text).

(** The command line that makes the assignments of [l], in order. *)
Definition assignments (l : list (setting * string)) : list string :=
  map (fun p => assignment p.1 p.2) l.

#[global] Instance setting_eq_dec : EqDecision setting.
Proof. solve_decision. Defined.

(** The text of the last assignment to [x] in [l]. *)
Fixpoint lastAssigned (x : setting) (l : list (setting * string))
    : option string :=
  match l with
  | [] => None
  | (y, text) :: l' =>
      match lastAssigned x l' with
      | Some t => Some t
      | None => if decide (x = y) then Some text else None
      end
  end.

(** A flag that takes no separate value: the one boolean setting. *)
Definition isSwitch (x : setting) : bool :=
  match x with LimiterEnabled => true | _ => false end.

(** [w] with another command line. *)
Definition withArgs (w : World) (a : list string) : World :=
  {| dotenv := dotenv w; environ := environ w; args := a;
     sqlOpen := sqlOpen w; ping := ping w; serve := serve w |}.

(** [w] with another [.env] file. *)
Definition withDotenv (w : World) (file : gmap string string) : World :=
  {| dotenv := Some file; environ := environ w; args := args w;
     sqlOpen := sqlOpen w; ping := ping w; serve := serve w |}.

(** ** The defaults of the settings (lines 70-89) *)

(** The variable of the environment that the definition of the flag of
    [x] reads. *)
Definition variable (x : setting) : string :=
  match x with
  | Port => "PORT" | Env => "ENVIRONMENT" | DbDsn => "GREENLIGHT_DB_DSN"
  | DbMaxOpenConns => "DB_MAX_IDLE_TIME"
  | DbMaxIdleConns => "DB_MAX_IDLE_TIME"
  | DbMaxIdleTime => "DB_MAX_IDLE_TIME"
  | LimiterRps => "LIMITER_RPS" | LimiterBurst => "LIMITER_BURST"
  | LimiterEnabled => "LIMITER_ENABLED"
  | SmtpHost => "SMTP_HOST" | SmtpPort => "SMTP_PORT"
  | SmtpUsername => "SMTP_USERNAME" | SmtpPassword => "SMTP_PASSWORD"
  | SmtpSender => "SMTP_SENDER"
  | CorsTrustedOrigins => "CORS_TRUSTED_ORIGIN"
  end.

(** The value of [x] when neither its flag nor its variable is set. *)
Definition builtin (x : setting) : value :=
  match x with
  | Port => Text "4000" | Env => Text "development"
  | DbDsn => Text EmptyString
  | DbMaxOpenConns => Text "25" | DbMaxIdleConns => Text "25"
  | DbMaxIdleTime => Text "15m"
  | LimiterRps => Int 2 | LimiterBurst => Int 4
  | LimiterEnabled => Bool true
  | SmtpHost => Text EmptyString | SmtpPort => Int 25
  | SmtpUsername => Text EmptyString | SmtpPassword => Text EmptyString
  | SmtpSender => Text "15m"
  | CorsTrustedOrigins => Texts []
  end.

(** What the definition of the flag of [x] makes of the text [v] of its
    variable; the definition of the CORS flag does not read it. *)
Definition fromVariable (x : setting) (v : string) : value :=
  match x with
  | LimiterRps | LimiterBurst | SmtpPort => Int (strconv.Atoi v).1
  | LimiterEnabled => Bool (strconv.ParseBool v).1
  | CorsTrustedOrigins => Texts []
  | _ => Text v
  end.

(** The value of [x] that the definition of its flag takes from the
    environment [os]: the built-in default when the variable is empty or
    not set. *)
Definition fromEnvironment (os : gmap string string) (x : setting) : value :=
  if String.eqb (Getenv os (variable x)) EmptyString then builtin x
  else fromVariable x (Getenv os (variable x)).

(** The exit status after an error of the command line: 0 after a
    request for help, 2 otherwise. *)
Definition parseStatus (e : flagError) : Z :=
  match e with ErrHelp => 0 | _ => 2 end.

(** ** More example worlds *)

(** Assignments for the examples: the port twice, the rate once. *)
Definition portTwice : list (setting * string) :=
  [(Port, "1"); (LimiterRps, "0x10"); (Port, "2")].

Definition portTwiceWorld : World :=
  world (Some ∅) {["PORT" := "5000"]} (assignments portTwice).

(** A world that turns the limiter off in the environment and gives the
    port on the command line. *)
Definition limiterOffWorld : World :=
  world (Some ∅) {["LIMITER_ENABLED" := "false"]} ["-port"; "80"].

(** ** The run after the configuration *)

(** What lines 95-130 of [main] do with a resolved configuration [c]:
    the outcome, the events, and the registry of the diagnostics. *)
Definition afterConfiguration (ParseDuration : string -> Z * option error)
    (w : World) (c : config) : result unit * list event * gmap string Var :=
  match sqlOpen w (db_dsn c) with
  | Some e => (Exit 1, [ESqlOpen "postgres" (db_dsn c); EPrintFatal e], ∅)
  | None =>
      match (ParseDuration (db_maxIdleTime c)).2 with
      | Some e => (Exit 1, opening c ++ [EPrintFatal e], ∅)
      | None =>
          match ping w (pool ParseDuration c) (5 * Second) with
          | Some e =>
              (Exit 1,
               opening c ++ checking ParseDuration c ++ [EPrintFatal e], ∅)
          | None =>
              ((ending w (app_of c (Some (pool ParseDuration c)))).1,
               serving ParseDuration w c,
               published (Some (pool ParseDuration c)))
          end
      end
  end.

(** The announcement of an outcome: the last event of the trace. *)
Definition announces (r : result unit) (e : option event) : Prop :=
  match r with
  | Done _ => e = Some EClose
  | Exit code =>
      (code = 0 /\ e = Some (EFlagError ErrHelp))
      \/ (code = 2 /\ exists err, err <> ErrHelp /\ e = Some (EFlagError err))
      \/ (code = 1 /\ ((exists msg, e = Some (EFatal msg))
                      \/ exists err, e = Some (EPrintFatal err)))
  | Panic => False
  end.

(** ** Accepted and rejected assignments *)

(** An assignment whose text the flag accepts. *)
Definition accepted (p : setting * string) : Prop :=
  flagRejects p.1 p.2 = None.

(** The error [flag.Parse] reports when the flag of [x] rejects [text]
    with [e]. *)
Definition rejection (x : setting) (text : string) (e : error) : flagError :=
  if isSwitch x then InvalidBoolean text (flagName x) e
  else InvalidValue text (flagName x) e.

(** The error [flag.Parse] reports for a flag that is not defined. *)
Definition undefinedFlag (name : string) : flagError :=
  if String.eqb name "help" || String.eqb name "h" then ErrHelp
  else NotDefined name.

(** ** The range of Go's [int] *)

Definition intRange (n : Z) : Prop := - 2 ^ 63 <= n < 2 ^ 63.

(** The integer settings of a configuration fit [int]. *)
Definition intsInRange (c : config) : Prop :=
  intRange (limiter_rps c) /\ intRange (limiter_burst c)
  /\ intRange (smtp_port c).

(** ** Tactics *)

(** Evaluation of the definitions: the defaults and the values of the
    flags stay abstract, the maps and the trace are computed. *)
Ltac abstract_values os :=
  repeat match goal with
         | |- context [getEnv os ?k ?d] => generalize (getEnv os k d); intro
         | |- context [Getenv os ?k] => generalize (Getenv os k); intro
         | |- context [flag.stringValue ?p] =>
             generalize (flag.stringValue p); intro
         | |- context [flag.intValue ?p] =>
             generalize (flag.intValue p); intro
         | |- context [flag.boolValue ?p] =>
             generalize (flag.boolValue p); intro
         | |- context [flag.funcValue ?p] =>
             generalize (flag.funcValue p); intro
         end.

Ltac flag_cases H :=
  unfold flags in H;
  repeat (apply lookup_insert_Some in H; destruct H as [[<- <-]|[? H]]);
  try (rewrite lookup_empty in H; discriminate H).

(** Facts of the form [Forall early tr] for the pieces of a trace. *)
Create HintDb traces.

(** A run that stopped early: its outcome is not [Done] and its trace
    holds early events only. *)
Ltac stopped :=
  left; split; [discriminate|];
  cbn [trace extend configured initial]; rewrite ?app_nil_r;
  repeat (apply Forall_app; split);
  auto with traces;
  repeat constructor.

(** * Properties *)

(** ** The library functions on examples *)

Example atoi_25 : strconv.Atoi "25" = (25, None).
Proof. reflexivity. Qed.
Example atoi_neg : strconv.Atoi "-7" = (-7, None).
Proof. reflexivity. Qed.
Example atoi_abc : strconv.Atoi "abc" = (0, Some ErrSyntax).
Proof. reflexivity. Qed.
Example atoi_empty : strconv.Atoi EmptyString = (0, Some ErrSyntax).
Proof. reflexivity. Qed.
Example atoi_big :
  strconv.Atoi "9223372036854775808" = (9223372036854775807, Some ErrRange).
Proof. vm_compute. reflexivity. Qed.
Example atoi_huge :
  strconv.Atoi "99999999999999999999999"
  = (9223372036854775807, Some ErrRange).
Proof. vm_compute. reflexivity. Qed.
Example atoi_min :
  strconv.Atoi "-9223372036854775808" = (-9223372036854775808, None).
Proof. vm_compute. reflexivity. Qed.
Example atoi_us : strconv.Atoi "1_000" = (0, Some ErrSyntax).
Proof. vm_compute. reflexivity. Qed.
Example parseint_hex : strconv.ParseInt "0x1F" 0 = (31, None).
Proof. vm_compute. reflexivity. Qed.
Example parseint_us : strconv.ParseInt "1_000" 0 = (1000, None).
Proof. vm_compute. reflexivity. Qed.
Example parseint_us2 : strconv.ParseInt "1__000" 0 = (0, Some ErrSyntax).
Proof. vm_compute. reflexivity. Qed.
Example parseint_oct : strconv.ParseInt "017" 0 = (15, None).
Proof. vm_compute. reflexivity. Qed.
Example parseint_zero : strconv.ParseInt "0" 0 = (0, None).
Proof. vm_compute. reflexivity. Qed.
Example split_ab : strings.Split "a,b,,c" "," = ["a"; "b"; EmptyString; "c"].
Proof. reflexivity. Qed.
Example split_empty : strings.Split EmptyString "," = [EmptyString].
Proof. reflexivity. Qed.

Example parseint_hexbig :
  strconv.ParseInt "0xFFFFFFFFFFFFFFFFF" 0
  = (9223372036854775807, Some ErrRange).
Proof. vm_compute. reflexivity. Qed.
Example parseint_bin : strconv.ParseInt "-0b101" 0 = (-5, None).
Proof. vm_compute. reflexivity. Qed.
Example parseint_0x : strconv.ParseInt "0x" 0 = (0, Some ErrSyntax).
Proof. vm_compute. reflexivity. Qed.
Example parseint_0_x : strconv.ParseInt "0_7" 0 = (7, None).
Proof. vm_compute. reflexivity. Qed.
Example parseint_0x_1 : strconv.ParseInt "0x_1" 0 = (1, None).
Proof. vm_compute. reflexivity. Qed.
Example parseint__1 : strconv.ParseInt "_1" 0 = (0, Some ErrSyntax).
Proof. vm_compute. reflexivity. Qed.
Example parseint_1_ : strconv.ParseInt "1_" 0 = (0, Some ErrSyntax).
Proof. vm_compute. reflexivity. Qed.
Example parseint_plus : strconv.ParseInt "+" 0 = (0, Some ErrSyntax).
Proof. vm_compute. reflexivity. Qed.
Example parseint_08 : strconv.ParseInt "08" 0 = (0, Some ErrSyntax).
Proof. vm_compute. reflexivity. Qed.

(** ** The monad *)

Lemma emit_extend e s : emit e s = extend s [e].
Proof. reflexivity. Qed.

Lemma extend_extend s l1 l2 : extend (extend s l1) l2 = extend s (l1 ++ l2).
Proof. unfold extend; simpl. by rewrite app_assoc. Qed.

Lemma bind_Done {A B} (m : M A) (k : A -> M B) s a s' :
  m s = (Done a, s') -> bind m k s = k a s'.
Proof. unfold bind. by intros ->. Qed.

Lemma bind_Exit {A B} (m : M A) (k : A -> M B) s code s' :
  m s = (Exit code, s') -> bind m k s = (Exit code, s').
Proof. unfold bind. by intros ->. Qed.

Lemma bind_ret {A B} (a : A) (k : A -> M B) s : bind (ret a) k s = k a s.
Proof. reflexivity. Qed.

Lemma bind_log {B} e (k : unit -> M B) s :
  bind (log e) k s = k tt (emit e s).
Proof. reflexivity. Qed.

(** ** The typed environment lookups *)

Lemma getIntEnv_eq os name value :
  getIntEnv os name value =
  match envInt os name value with
  | Some n => ret n
  | None => log_Fatal "failed to parse int env variable"
  end.
Proof.
  unfold getIntEnv, envInt.
  destruct (String.eqb (Getenv os name) EmptyString); [reflexivity|].
  destruct (strconv.Atoi (Getenv os name)) as [n [e|]]; reflexivity.
Qed.

Lemma getBoolEnv_eq os name value :
  getBoolEnv os name value =
  match envBool os name value with
  | Some b => ret b
  | None => log_Fatal "failed to parse bool env variable"
  end.
Proof.
  unfold getBoolEnv, envBool.
  destruct (String.eqb (Getenv os name) EmptyString); [reflexivity|].
  destruct (strconv.ParseBool (Getenv os name)) as [b [e|]]; reflexivity.
Qed.

Lemma envInt_malformed os name value :
  malformedInt (Getenv os name) = true -> envInt os name value = None.
Proof.
  unfold malformedInt, envInt.
  destruct (String.eqb (Getenv os name) EmptyString); [discriminate|].
  by destruct (strconv.Atoi (Getenv os name)) as [n [e|]].
Qed.

Lemma envBool_malformed os name value :
  malformedBool (Getenv os name) = true -> envBool os name value = None.
Proof.
  unfold malformedBool, envBool.
  destruct (String.eqb (Getenv os name) EmptyString); [discriminate|].
  by destruct (strconv.ParseBool (Getenv os name)) as [n [e|]].
Qed.

Lemma typedEnv_malformed os :
  malformedEnvironment os = true -> typedEnv os = None.
Proof.
  unfold malformedEnvironment, typedEnv. intros H.
  repeat (apply orb_prop in H; destruct H as [H|H]).
  - by rewrite (envInt_malformed _ _ _ H).
  - rewrite (envInt_malformed _ _ _ H). by destruct (envInt os "LIMITER_RPS" 2).
  - rewrite (envBool_malformed _ _ _ H).
    by destruct (envInt os "LIMITER_RPS" 2), (envInt os "LIMITER_BURST" 4).
  - rewrite (envInt_malformed _ _ _ H).
    by destruct (envInt os "LIMITER_RPS" 2), (envInt os "LIMITER_BURST" 4),
         (envBool os "LIMITER_ENABLED" true).
Qed.

Lemma getEnv_unset os name value :
  Getenv os name = EmptyString -> getEnv os name value = value.
Proof. unfold getEnv. by intros ->. Qed.

Lemma Getenv_unset os name :
  os !! name = None \/ os !! name = Some EmptyString ->
  Getenv os name = EmptyString.
Proof. unfold Getenv. by intros [-> | ->]. Qed.

(** ** The flag definitions *)

Lemma defineFlags_ok os rps burst enabled smtpPort :
  envInt os "LIMITER_RPS" 2 = Some rps ->
  envInt os "LIMITER_BURST" 4 = Some burst ->
  envBool os "LIMITER_ENABLED" true = Some enabled ->
  envInt os "SMTP_PORT" 25 = Some smtpPort ->
  defineFlags os initial = (Done tt, defined os rps burst enabled smtpPort).
Proof.
  intros H1 H2 H3 H4.
  unfold defineFlags. rewrite !getIntEnv_eq, getBoolEnv_eq, H1, H2, H3, H4.
  unfold defined, defaults, flags.
  unfold flag.StringVar, flag.IntVar, flag.BoolVar, flag.Func.
  clear. abstract_values os.
  vm_compute. reflexivity.
Qed.

Lemma defineFlags_typed os rps burst enabled smtpPort :
  typedEnv os = Some (rps, burst, enabled, smtpPort) ->
  defineFlags os initial = (Done tt, defined os rps burst enabled smtpPort).
Proof.
  unfold typedEnv. intros H.
  destruct (envInt os "LIMITER_RPS" 2) as [r|] eqn:H1; [|discriminate].
  destruct (envInt os "LIMITER_BURST" 4) as [b|] eqn:H2; [|discriminate].
  destruct (envBool os "LIMITER_ENABLED" true) as [e|] eqn:H3; [|discriminate].
  destruct (envInt os "SMTP_PORT" 25) as [p|] eqn:H4; [|discriminate].
  inversion H; subst. by apply defineFlags_ok.
Qed.

Lemma defineFlags_fatal os :
  typedEnv os = None ->
  exists s k msg,
    defineFlags os initial = (Exit 1, s)
    /\ trace s = map EFlagVar (take k names) ++ [EFatal msg]
    /\ msg ∈ fatalMessages
    /\ vars s = ∅
    /\ actual s = ∅.
Proof.
  unfold typedEnv, defineFlags. intros H.
  rewrite !getIntEnv_eq, getBoolEnv_eq.
  unfold flag.StringVar, flag.IntVar, flag.BoolVar, flag.Func.
  destruct (envInt os "LIMITER_RPS" 2) as [r|].
  2:{ clear H. abstract_values os.
      eexists _, 6%nat, _. split; [vm_compute; reflexivity|].
      split; [reflexivity|]. split; [|split; reflexivity].
      apply list_elem_of_here. }
  destruct (envInt os "LIMITER_BURST" 4) as [b|].
  2:{ clear H. abstract_values os.
      eexists _, 7%nat, _. split; [vm_compute; reflexivity|].
      split; [reflexivity|]. split; [|split; reflexivity].
      apply list_elem_of_here. }
  destruct (envBool os "LIMITER_ENABLED" true) as [e|].
  2:{ clear H. abstract_values os.
      eexists _, 8%nat, _. split; [vm_compute; reflexivity|].
      split; [reflexivity|]. split; [|split; reflexivity].
      apply list_elem_of_further, list_elem_of_here. }
  destruct (envInt os "SMTP_PORT" 25) as [p|]; [discriminate|].
  clear H. abstract_values os.
  eexists _, 10%nat, _. split; [vm_compute; reflexivity|].
  split; [reflexivity|]. split; [|split; reflexivity].
  apply list_elem_of_here.
Qed.

(** ** Reading the command line *)

(** [parse] moves forward by one or by two arguments. *)
Lemma arguments_ind (P : list string -> Prop) :
  P [] ->
  (forall s rest,
      P rest -> (forall t rest', rest = t :: rest' -> P rest') ->
      P (s :: rest)) ->
  forall l, P l.
Proof.
  intros Hnil Hcons l.
  assert (H : P l /\ (forall t l', l = t :: l' -> P l')); [|tauto].
  induction l as [|s rest [IH1 IH2]].
  - split; [assumption|]. intros t l' E. discriminate E.
  - split; [by apply Hcons|]. intros t l' E. inversion E; subst. assumption.
Qed.

Lemma given_cons name a arguments :
  given name arguments = true -> given name (a :: arguments) = true.
Proof. simpl. intros ->. apply orb_true_r. Qed.

(** The flags recorded as set were set before or are given. *)
Lemma parse_actual formal arguments : forall c act e c' act' name,
  flag.parse formal arguments c act = (e, c', act') ->
  name ∈ act' -> name ∈ act \/ given name arguments = true.
Proof.
  induction arguments as [|s rest IH IH2] using arguments_ind;
    intros c act e c' act' name H Hin; simpl in H.
  { inversion H; subst. by left. }
  destruct (flag.scan s) as [| | |n v] eqn:Hs;
    try (inversion H; subst; by left).
  destruct (formal !! n) as [fv|];
    [|destruct (_ || _); inversion H; subst; by left].
  assert (Hhere : forall act0, name ∈ ({[n]} ∪ act0 : gset string) ->
                               name ∈ act0 \/ given name (s :: rest) = true).
  { intros act0 [->%elem_of_singleton|?]%elem_of_union; [right|by left].
    simpl. unfold namesFlag. by rewrite Hs, String.eqb_refl. }
  destruct (IsBoolFlag fv).
  - destruct (vSet fv (default "true" v) c) as [c1 [e1|]];
      [inversion H; subst; by left|].
    destruct (IH _ _ _ _ _ name H Hin) as [Hn|Hg]; [by apply Hhere|].
    right. by apply given_cons.
  - destruct v as [text|].
    + destruct (vSet fv text c) as [c1 [e1|]];
        [inversion H; subst; by left|].
      destruct (IH _ _ _ _ _ name H Hin) as [Hn|Hg]; [by apply Hhere|].
      right. by apply given_cons.
    + destruct rest as [|text rest']; [inversion H; subst; by left|].
      destruct (vSet fv text c) as [c1 [e1|]];
        [inversion H; subst; by left|].
      destruct (IH2 _ _ eq_refl _ _ _ _ _ name H Hin) as [Hn|Hg];
        [by apply Hhere|].
      right. by apply given_cons, given_cons.
Qed.

(** The set of the flags recorded as set only grows. *)
Lemma parse_mono formal arguments : forall c act e c' act',
  flag.parse formal arguments c act = (e, c', act') -> act ⊆ act'.
Proof.
  induction arguments as [|s rest IH IH2] using arguments_ind;
    intros c act e c' act' H; simpl in H.
  { by inversion H. }
  destruct (flag.scan s) as [| | |n v]; try (by inversion H).
  destruct (formal !! n) as [fv|];
    [|destruct (_ || _); by inversion H].
  destruct (IsBoolFlag fv).
  - destruct (vSet fv (default "true" v) c) as [c1 [e1|]];
      [by inversion H|].
    apply IH in H. set_solver.
  - destruct v as [text|].
    + destruct (vSet fv text c) as [c1 [e1|]]; [by inversion H|].
      apply IH in H. set_solver.
    + destruct rest as [|text rest']; [by inversion H|].
      destruct (vSet fv text c) as [c1 [e1|]]; [by inversion H|].
      apply (IH2 _ _ eq_refl) in H. set_solver.
Qed.

(** A field that only the flag [name] writes keeps its value when the
    command line is read without error and [name] is not given. *)
Lemma parse_keeps {A} (get : config -> A) (name : string) formal :
  (forall n fv text c,
      formal !! n = Some fv -> n <> name -> get (vSet fv text c).1 = get c) ->
  forall arguments c act c' act',
    flag.parse formal arguments c act = (None, c', act') ->
    name ∉ act' -> get c' = get c.
Proof.
  intros Hother.
  induction arguments as [|s rest IH IH2] using arguments_ind;
    intros c act c' act' H Hnot; simpl in H.
  { by inversion H. }
  destruct (flag.scan s) as [| | |n v] eqn:Hs; try (by inversion H).
  destruct (formal !! n) as [fv|] eqn:Hn;
    [|destruct (_ || _); inversion H].
  assert (Hne : forall rest0 c0,
             flag.parse formal rest0 c0 ({[n]} ∪ act) = (None, c', act') ->
             n <> name).
  { intros rest0 c0 Hp ->. apply Hnot.
    apply parse_mono in Hp. set_solver. }
  destruct (IsBoolFlag fv).
  - destruct (vSet fv (default "true" v) c) as [c1 [e1|]] eqn:Hset;
      [inversion H|].
    rewrite (IH _ _ _ _ H Hnot).
    replace c1 with (vSet fv (default "true" v) c).1 by (by rewrite Hset).
    eapply Hother; [exact Hn|]. eapply Hne; eassumption.
  - destruct v as [text|].
    + destruct (vSet fv text c) as [c1 [e1|]] eqn:Hset; [inversion H|].
      rewrite (IH _ _ _ _ H Hnot).
      replace c1 with (vSet fv text c).1 by (by rewrite Hset).
      eapply Hother; [exact Hn|]. eapply Hne; eassumption.
    + destruct rest as [|text rest']; [inversion H|].
      destruct (vSet fv text c) as [c1 [e1|]] eqn:Hset; [inversion H|].
      rewrite (IH2 _ _ eq_refl _ _ _ _ H Hnot).
      replace c1 with (vSet fv text c).1 by (by rewrite Hset).
      eapply Hother; [exact Hn|]. eapply Hne; eassumption.
Qed.

(** Each flag writes the field of its own setting only. *)
Lemma flags_own os n fv text c x :
  flags os !! n = Some fv -> n <> flagName x ->
  field x (vSet fv text c).1 = field x c.
Proof.
  intros H Hne. flag_cases H; destruct x; simpl in Hne;
    try congruence; try reflexivity;
    simpl; try (destruct (strconv.ParseInt text 0)); 
    try (destruct (strconv.ParseBool text)); reflexivity.
Qed.

Lemma scan_assignment x text :
  flag.scan (String "-" (flagName x +:+ String "=" text))
  = flag.Flag (flagName x) (Some text).
Proof. destruct x; reflexivity. Qed.

Lemma flags_lookup os x :
  exists fv, flags os !! flagName x = Some fv
             /\ forall text c,
                 field x (vSet fv text c).1 = flagValue os x text
                 /\ (vSet fv text c).2 = flagRejects x text.
Proof.
  destruct x; eexists; (split; [unfold flags; by simplify_map_eq|]);
    intros text c; simpl;
    try (destruct (strconv.ParseInt text 0));
    try (destruct (strconv.ParseBool text)); split; reflexivity.
Qed.

(** ** The resolved configuration *)

(** [configure] when the typed lookups succeed: the flags are defined,
    the command line is read. *)
Lemma configure_typed os arguments rps burst enabled smtpPort e c act :
  typedEnv os = Some (rps, burst, enabled, smtpPort) ->
  flag.parse (flags os) arguments (defaults os rps burst enabled smtpPort) ∅
    = (e, c, act) ->
  configure os arguments initial =
    (parseOutcome e c, configured os arguments e c act).
Proof.
  intros Ht Hp. unfold configure, configured.
  rewrite (bind_Done _ _ _ _ _ (defineFlags_typed _ _ _ _ _ Ht)).
  unfold bind, flag.Parse. cbn [cfg formal actual vars trace defined].
  rewrite Hp. destruct e as [[]|]; reflexivity.
Qed.

(** [configure] when a typed lookup fails. *)
Lemma configure_fatal os arguments :
  typedEnv os = None ->
  exists s k msg,
    configure os arguments initial = (Exit 1, s)
    /\ trace s = map EFlagVar (take k names) ++ [EFatal msg]
    /\ msg ∈ fatalMessages
    /\ vars s = ∅
    /\ actual s = ∅.
Proof.
  intros Ht. destruct (defineFlags_fatal os Ht) as (s & k & msg & H & Hrest).
  exists s, k, msg. split; [|exact Hrest].
  unfold configure. by rewrite (bind_Exit _ _ _ _ _ H).
Qed.

Lemma init_loaded w os :
  godotenv_Load w = (os, None) -> init w = ret os.
Proof. unfold init. by intros ->. Qed.

Lemma configuration_loaded w os :
  godotenv_Load w = (os, None) ->
  configuration w = configure os (args w) initial.
Proof. intros H. unfold configuration. by rewrite (init_loaded _ _ H). Qed.

Lemma Load_cases w :
  (dotenv w = None /\ godotenv_Load w = (environ w, Some ErrDotenv))
  \/ (exists file, dotenv w = Some file
                   /\ godotenv_Load w = (environ w ∪ file, None)).
Proof.
  unfold godotenv_Load. destruct (dotenv w) as [file|]; [right|left]; eauto.
Qed.

(** A resolved configuration is what the command line makes of the
    defaults. *)
Lemma resolve_Done w c :
  resolve w = Done c ->
  exists os rps burst enabled smtpPort act,
    godotenv_Load w = (os, None)
    /\ typedEnv os = Some (rps, burst, enabled, smtpPort)
    /\ flag.parse (flags os) (args w)
         (defaults os rps burst enabled smtpPort) ∅ = (None, c, act)
    /\ configuration w = (Done c, configured os (args w) None c act).
Proof.
  unfold resolve. intros H.
  destruct (Load_cases w) as [[Hd Hl]|(file & Hd & Hl)].
  { unfold configuration, init in H. rewrite Hl in H. discriminate H. }
  rewrite (configuration_loaded _ _ Hl) in H |- *.
  destruct (typedEnv (environ w ∪ file))
    as [[[[rps burst] enabled] sp]|] eqn:Ht.
  - destruct (flag.parse (flags (environ w ∪ file)) (args w)
                (defaults (environ w ∪ file) rps burst enabled sp) ∅)
      as [[e c'] act] eqn:Hp.
    rewrite (configure_typed _ _ _ _ _ _ _ _ _ Ht Hp) in H |- *.
    destruct e as [e|]; simpl in H; [destruct e; discriminate H|].
    inversion H; subst.
    by exists (environ w ∪ file), rps, burst, enabled, sp, act.
  - destruct (configure_fatal _ (args w) Ht) as (s & k & msg & Hc & _).
    rewrite Hc in H. discriminate H.
Qed.

(** Without its flag a setting keeps the default of its definition. *)
Lemma resolve_default w c x :
  resolve w = Done c -> given (flagName x) (args w) = false ->
  exists os rps burst enabled smtpPort,
    godotenv_Load w = (os, None)
    /\ typedEnv os = Some (rps, burst, enabled, smtpPort)
    /\ field x c = field x (defaults os rps burst enabled smtpPort).
Proof.
  intros H Hng.
  destruct (resolve_Done _ _ H)
    as (os & rps & burst & enabled & sp & act & Hl & Ht & Hp & _).
  exists os, rps, burst, enabled, sp. split; [done|]. split; [done|].
  eapply (parse_keeps (field x) (flagName x)); [|exact Hp|].
  - intros n fv text c0. apply flags_own.
  - intros Hin. destruct (parse_actual _ _ _ _ _ _ _ _ Hp Hin) as [Hn|Hg];
      [set_solver|congruence].
Qed.

(** A command line of one flag, written [-name=text]: the setting of the
    flag holds what the flag makes of [text]. *)
Lemma resolve_single_flag w c x text :
  args w = [String "-" (flagName x +:+ String "=" text)] ->
  resolve w = Done c ->
  exists os, godotenv_Load w = (os, None)
             /\ field x c = flagValue os x text.
Proof.
  intros Ha H.
  destruct (resolve_Done _ _ H)
    as (os & rps & burst & enabled & sp & act & Hl & Ht & Hp & _).
  exists os. split; [exact Hl|].
  rewrite Ha in Hp. cbn [flag.parse] in Hp.
  rewrite scan_assignment in Hp.
  destruct (flags_lookup os x) as (fv & Hfv & Hset). rewrite Hfv in Hp.
  destruct (Hset text (defaults os rps burst enabled sp)) as [<- _].
  destruct (IsBoolFlag fv).
  - simpl in Hp. destruct (vSet fv text _) as [c1 [e1|]]; [discriminate Hp|].
    by injection Hp as <- _.
  - destruct (vSet fv text _) as [c1 [e1|]]; [discriminate Hp|].
    by injection Hp as <- _.
Qed.

(** A command line of one flag whose text the flag rejects ends the
    process with status 2. *)
Lemma resolve_rejected_flag w os x text e :
  godotenv_Load w = (os, None) ->
  typedEnv os <> None ->
  args w = [String "-" (flagName x +:+ String "=" text)] ->
  flagRejects x text = Some e ->
  resolve w = Exit 2.
Proof.
  intros Hl Ht Ha Hrej. unfold resolve.
  rewrite (configuration_loaded _ _ Hl).
  destruct (typedEnv os) as [[[[rps burst] enabled] sp]|] eqn:Hty;
    [clear Ht|congruence].
  destruct (flag.parse (flags os) (args w)
              (defaults os rps burst enabled sp) ∅) as [[e' c] act] eqn:Hp.
  rewrite (configure_typed _ _ _ _ _ _ _ _ _ Hty Hp). simpl.
  rewrite Ha in Hp. cbn [flag.parse] in Hp.
  rewrite scan_assignment in Hp.
  destruct (flags_lookup os x) as (fv & Hfv & Hset). rewrite Hfv in Hp.
  destruct (Hset text (defaults os rps burst enabled sp)) as [_ Herr].
  rewrite Hrej in Herr.
  destruct (IsBoolFlag fv); simpl in Hp;
    destruct (vSet fv text _) as [c1 e1]; simpl in Herr; subst e1;
    by injection Hp as <- _ _.
Qed.

(** ** Traces *)

Lemma served_app tr1 tr2 : served (tr1 ++ tr2) = served tr1 ++ served tr2.
Proof.
  induction tr1 as [|e tr1 IH]; [reflexivity|].
  destruct e; simpl; by rewrite ?IH.
Qed.

Lemma served_elem app tr : EServe app ∈ tr -> app ∈ served tr.
Proof.
  induction tr as [|e tr IH]; intros H.
  - by apply elem_of_nil in H.
  - apply elem_of_cons in H. destruct H as [<-|H].
    + apply list_elem_of_here.
    + destruct e; simpl; try (by apply IH).
      apply list_elem_of_further. by apply IH.
Qed.

Lemma served_flagVars l : served (map EFlagVar l) = [].
Proof. induction l; simpl; auto. Qed.

Lemma early_flagVars l : Forall early (map EFlagVar l).
Proof. induction l; simpl; constructor; [exact I | assumption]. Qed.

Lemma early_not_served tr app : Forall early tr -> EServe app ∉ tr.
Proof.
  intros H Hin. rewrite Forall_forall in H. exact (H _ Hin).
Qed.

(** ** The runs of the program *)

Section Runs.

Variable ParseDuration : string -> Z * option error.
Variable w : World.

(** [openDB], case by case. *)
Lemma openDB_run cfg s :
  openDB ParseDuration w cfg s =
  match sqlOpen w (db_dsn cfg) with
  | Some e =>
      (Done (None, Some e), extend s [ESqlOpen "postgres" (db_dsn cfg)])
  | None =>
      match (ParseDuration (db_maxIdleTime cfg)).2 with
      | Some e => (Done (None, Some e), extend s (opening cfg))
      | None =>
          match ping w (pool ParseDuration cfg) (5 * Second) with
          | Some e =>
              (Done (None, Some e),
               extend s (opening cfg ++ checking ParseDuration cfg))
          | None =>
              (Done (Some (pool ParseDuration cfg), None),
               extend s (opening cfg ++ checking ParseDuration cfg))
          end
      end
  end.
Proof.
  unfold openDB, pool, opening, checking, sql.Open.
  unfold bind at 1. unfold bind at 1. unfold log at 1.
  destruct (sqlOpen w (db_dsn cfg)) as [e|]; [reflexivity|].
  cbn [ret].
  destruct (strconv.Atoi (db_maxOpenConns cfg)) as [n1 e1].
  destruct (strconv.Atoi (db_maxIdleConns cfg)) as [n2 e2].
  destruct (ParseDuration (db_maxIdleTime cfg)) as [d [e|]]; cbn.
  - unfold ret. by rewrite !emit_extend, !extend_extend.
  - destruct (ping w _ _) as [e|]; unfold ret;
      by rewrite !emit_extend, !extend_extend.
Qed.

Lemma publish_run db s :
  vars s = ∅ ->
  publish db s =
  (Done tt,
   {| cfg := cfg s; formal := formal s; actual := actual s;
      vars := published db; trace := trace s ++ publishing |}).
Proof.
  destruct s as [c f a v t]; simpl. intros ->.
  unfold publish, expvar.NewString, expvar.String_Set, expvar.Publish,
    bind, ret, published, publishing; simpl.
  repeat (first [rewrite lookup_empty | rewrite lookup_insert_ne by done];
          simpl).
  by rewrite <- !app_assoc.
Qed.

(** When the pool cannot be opened, [main] stops with a fatal entry. *)
Lemma start_failed c s db e evs :
  openDB ParseDuration w c s = (Done (db, Some e), extend s evs) ->
  start ParseDuration w c s = (Exit 1, extend s (evs ++ [EPrintFatal e])).
Proof.
  intros H. unfold start. rewrite (bind_Done _ _ _ _ _ H).
  unfold PrintFatal, bind, log, os_Exit.
  by rewrite emit_extend, extend_extend.
Qed.

(** When the pool is open, [main] publishes and serves. *)
Lemma start_opened c s :
  vars s = ∅ ->
  openDB ParseDuration w c s =
    (Done (Some (pool ParseDuration c), None),
     extend s (opening c ++ checking ParseDuration c)) ->
  start ParseDuration w c s =
  ((ending w (app_of c (Some (pool ParseDuration c)))).1,
   {| cfg := cfg s; formal := formal s; actual := actual s;
      vars := published (Some (pool ParseDuration c));
      trace := trace s ++ serving ParseDuration w c |}).
Proof.
  intros Hv H. unfold start. rewrite (bind_Done _ _ _ _ _ H).
  unfold PrintInfo. rewrite bind_ret, bind_log.
  erewrite bind_Done; [|by apply publish_run].
  rewrite bind_log. unfold serving, ending.
  destruct (serve w (app_of c (Some (pool ParseDuration c)))) as [e|].
  - unfold PrintFatal, bind, log, os_Exit, emit, extend; simpl.
    by rewrite <- !app_assoc.
  - unfold bind, ret, sql.Close, log, emit, extend; simpl.
    by rewrite <- !app_assoc.
Qed.

Lemma served_serving c :
  served (serving ParseDuration w c)
  = [app_of c (Some (pool ParseDuration c))].
Proof.
  unfold serving, ending. rewrite !served_app.
  by destruct (serve w (app_of c (Some (pool ParseDuration c)))).
Qed.

Lemma program_loaded os :
  godotenv_Load w = (os, None) ->
  program ParseDuration w
  = (c <- configure os (args w);; start ParseDuration w c) initial.
Proof.
  intros H. unfold program, main. by rewrite (init_loaded _ _ H).
Qed.

Lemma program_unloaded :
  dotenv w = None ->
  program ParseDuration w =
  (Exit 1, extend initial [EFatal "Error loading .env file"]).
Proof.
  intros H. unfold program, init, godotenv_Load. by rewrite H.
Qed.

Lemma early_opening c : Forall early (opening c).
Proof. repeat constructor. Qed.

Lemma early_checking c : Forall early (checking ParseDuration c).
Proof. repeat constructor. Qed.

Lemma early_parseEvents a e : Forall early (parseEvents a e).
Proof. destruct e; repeat constructor. Qed.

#[local] Hint Resolve early_flagVars early_parseEvents early_opening
  early_checking : traces.

(** A run either ends before the pool is handed over, or it serves the
    resolved configuration with the pool [openDB] configured. *)
Lemma program_cases r s :
  program ParseDuration w = (r, s) ->
  (r <> Done tt /\ Forall early (trace s))
  \/ exists c,
      resolve w = Done c
      /\ sqlOpen w (db_dsn c) = None
      /\ (ParseDuration (db_maxIdleTime c)).2 = None
      /\ ping w (pool ParseDuration c) (5 * Second) = None
      /\ vars s = published (Some (pool ParseDuration c))
      /\ served (trace s) = [app_of c (Some (pool ParseDuration c))].
Proof.
  intros H.
  destruct (Load_cases w) as [[Hd Hl]|(file & Hd & Hl)].
  { rewrite (program_unloaded Hd) in H. injection H as <- <-. stopped. }
  rewrite (program_loaded _ Hl) in H.
  set (os := environ w ∪ file) in *.
  destruct (typedEnv os) as [[[[rps burst] enabled] sp]|] eqn:Ht.
  2:{ destruct (configure_fatal _ (args w) Ht)
        as (s1 & k & msg & Hc & Htr & _).
      rewrite (bind_Exit _ _ _ _ _ Hc) in H. injection H as <- <-.
      rewrite Htr. stopped. }
  destruct (flag.parse (flags os) (args w)
              (defaults os rps burst enabled sp) ∅) as [[e c] act] eqn:Hp.
  pose proof (configure_typed _ _ _ _ _ _ _ _ _ Ht Hp) as Hc.
  destruct e as [e|].
  { destruct e; cbn [parseOutcome] in Hc;
      rewrite (bind_Exit _ _ _ _ _ Hc) in H; injection H as <- <-;
      stopped. }
  cbn [parseOutcome] in Hc. rewrite (bind_Done _ _ _ _ _ Hc) in H.
  assert (Hres : resolve w = Done c).
  { unfold resolve. rewrite (configuration_loaded _ _ Hl). fold os.
    by rewrite Hc. }
  pose proof (openDB_run c
                (configured os (args w) None c act)) as Ho.
  destruct (sqlOpen w (db_dsn c)) as [e1|] eqn:Hopen.
  { rewrite (start_failed _ _ _ _ _ Ho) in H. injection H as <- <-.
    stopped. }
  destruct (ParseDuration (db_maxIdleTime c)).2 as [e2|] eqn:Hdur.
  { rewrite (start_failed _ _ _ _ _ Ho) in H. injection H as <- <-.
    stopped. }
  destruct (ping w (pool ParseDuration c) (5 * Second)) as [e3|] eqn:Hping.
  { rewrite (start_failed _ _ _ _ _ Ho) in H. injection H as <- <-.
    stopped. }
  rewrite (start_opened c
             (configured os (args w) None c act) eq_refl Ho) in H.
  right. exists c. injection H as <- <-.
  cbn [vars trace configured].
  repeat (split; [assumption|]). split; [reflexivity|].
  cbn [served]. apply served_serving.
Qed.

(** A run whose configuration resolves and whose pool opens serves. *)
Lemma program_serves c :
  resolve w = Done c ->
  sqlOpen w (db_dsn c) = None ->
  (ParseDuration (db_maxIdleTime c)).2 = None ->
  ping w (pool ParseDuration c) (5 * Second) = None ->
  exists s,
    program ParseDuration w
    = ((ending w (app_of c (Some (pool ParseDuration c)))).1, s)
    /\ vars s = published (Some (pool ParseDuration c))
    /\ trace s = map EFlagVar names ++ [EFlagParse (args w)]
                 ++ serving ParseDuration w c.
Proof.
  intros Hres Hopen Hdur Hping.
  destruct (resolve_Done _ _ Hres)
    as (os & rps & burst & enabled & sp & act & Hl & Ht & Hp & Hc).
  rewrite (configuration_loaded _ _ Hl) in Hc.
  rewrite (program_loaded _ Hl), (bind_Done _ _ _ _ _ Hc).
  pose proof (openDB_run c
                (configured os (args w) None c act)) as Ho.
  rewrite Hopen, Hdur, Hping in Ho.
  rewrite (start_opened c
             (configured os (args w) None c act) eq_refl Ho).
  eexists. split; [reflexivity|]. split; [reflexivity|].
  cbn [trace configured parseEvents]. by rewrite <- app_assoc.
Qed.

(** A resolved idle time that does not parse ends the start-up: the
    pool is opened, the error is logged as fatal, nothing is checked
    or served. *)
Lemma program_idle_time_rejected c e :
  resolve w = Done c ->
  sqlOpen w (db_dsn c) = None ->
  (ParseDuration (db_maxIdleTime c)).2 = Some e ->
  exists s,
    program ParseDuration w = (Exit 1, s)
    /\ trace s = map EFlagVar names ++ [EFlagParse (args w)]
                 ++ opening c ++ [EPrintFatal e].
Proof.
  intros Hres Hopen Hdur.
  destruct (resolve_Done _ _ Hres)
    as (os & rps & burst & enabled & sp & act & Hl & Ht & Hp & Hc).
  rewrite (configuration_loaded _ _ Hl) in Hc.
  rewrite (program_loaded _ Hl), (bind_Done _ _ _ _ _ Hc).
  pose proof (openDB_run c
                (configured os (args w) None c act)) as Ho.
  rewrite Hopen, Hdur in Ho.
  rewrite (start_failed _ _ _ _ _ Ho).
  eexists. split; [reflexivity|].
  cbn [trace extend configured parseEvents]. by rewrite <- !app_assoc.
Qed.

End Runs.

(** ** The tracker *)

(** The count and the number of running units move together. *)
Lemma tracker_run_counts schedule : forall t t',
  tracker.run t schedule = Some t' ->
  tracker.outstanding t' - tracker.outstanding t
  = Z.of_nat (tracker.submissions schedule)
    - Z.of_nat (tracker.completions schedule)
  /\ Z.of_nat (size (tracker.running t'))
     - Z.of_nat (size (tracker.running t))
     = Z.of_nat (tracker.submissions schedule)
       - Z.of_nat (tracker.completions schedule).
Proof.
  induction schedule as [|a schedule IH]; intros t t' H; simpl in H.
  { injection H as <-. simpl. lia. }
  destruct (tracker.step t a) as [t1|] eqn:Hs; [|discriminate H].
  destruct (IH _ _ H) as [IH1 IH2].
  clear IH H.
  destruct a as [id|id o]; simpl in Hs; case_decide; try discriminate Hs;
    injection Hs as <-; simpl in *.
  - assert (Hsize : size ({[id]} ∪ tracker.running t)
                    = S (size (tracker.running t))).
    { rewrite size_union, size_singleton; [reflexivity|].
      by apply disjoint_singleton_l. }
    lia.
  - assert (Hsize : size (tracker.running t)
                    = S (size (tracker.running t ∖ {[id]}))).
    { rewrite (union_difference_singleton_L id (tracker.running t)) at 1
        by assumption.
      rewrite size_union, size_singleton; [reflexivity|].
      apply disjoint_singleton_l, not_elem_of_difference. right.
      by apply elem_of_singleton. }
    lia.
Qed.

(** The scenario of the specification: three units, one of which fails;
    the count goes 3, 2, 1, 0. *)
Example tracker_three_units :
  map (fun k =>
         tracker.outstanding <$>
           tracker.run tracker.empty
             (take k [tracker.Submit 1; tracker.Submit 2; tracker.Submit 3;
                      tracker.Complete 2 (tracker.Failed "panic");
                      tracker.Complete 1 tracker.Finished;
                      tracker.Complete 3 tracker.Finished]))
      [3; 4; 5; 6]%nat
  = [Some 3; Some 2; Some 1; Some 0].
Proof. vm_compute. reflexivity. Qed.

(** * The claims *)

(** C1 (the code departs from the claim).  With the flag
    [-cors-trusted-origins=https://a.example] and the variable
    [CORS_TRUSTED_ORIGIN=https://b.example] the resolved list is the
    value of the variable, not that of the flag; with the variable alone
    the resolved list is empty. *)
Theorem cors_flag_value_is_not_used :
  (exists c,
      resolve (world (Some ∅) {["CORS_TRUSTED_ORIGIN" := "https://b.example"]}
                 ["-cors-trusted-origins=https://a.example"]) = Done c
      /\ cors_trustedOrigins c = ["https://b.example"])
  /\ (exists c,
        resolve (world (Some ∅)
                   {["CORS_TRUSTED_ORIGIN" := "https://b.example"]} [])
        = Done c
        /\ cors_trustedOrigins c = []).
Proof.
  split; eexists; (split; [vm_compute; reflexivity | reflexivity]).
Qed.

(** C2 (the code departs from the claim).  With the flag
    [-db-max-open-conns=abc] and nothing else set, start-up does not
    fail: [openDB] discards the error of [strconv.Atoi], hands 0 to
    [SetMaxOpenConns], and the process serves with that pool. *)
Theorem malformed_pool_limit_is_served ParseDuration d :
  ParseDuration "15m" = (d, None) ->
  exists s c,
    program ParseDuration (world (Some ∅) ∅ ["-db-max-open-conns=abc"])
    = (Done tt, s)
    /\ db_maxOpenConns c = "abc"
    /\ strconv.Atoi "abc" = (0, Some ErrSyntax)
    /\ ESetMaxOpenConns 0 ∈ trace s
    /\ served (trace s)
       = [app_of c (Some {| dsn := EmptyString; maxOpen := 0; maxIdle := 25;
                            maxIdleTime := d |})].
Proof.
  intros Hd.
  set (W := world (Some ∅) ∅ ["-db-max-open-conns=abc"]).
  set (c := set_db_maxOpenConns "abc" (defaults ∅ 2 4 true 25)).
  assert (Hres : resolve W = Done c) by (vm_compute; reflexivity).
  assert (Hdur : ParseDuration (db_maxIdleTime c) = (d, None)) by exact Hd.
  assert (Hpool : pool ParseDuration c
                  = {| dsn := EmptyString; maxOpen := 0; maxIdle := 25;
                       maxIdleTime := d |}).
  { unfold pool. rewrite Hdur. reflexivity. }
  destruct (program_serves ParseDuration W c Hres eq_refl)
    as (s & Hp & _ & Htr).
  - by rewrite Hdur.
  - reflexivity.
  - exists s, c. split; [exact Hp|]. split; [reflexivity|].
    split; [reflexivity|]. rewrite Htr. split.
    + apply elem_of_app. right. apply elem_of_app. right.
      unfold serving. apply elem_of_app. left.
      change (opening c) with
        [ESqlOpen "postgres" EmptyString; ESetMaxOpenConns 0;
         ESetMaxIdleConns 25].
      apply list_elem_of_further, list_elem_of_here.
    + rewrite !served_app, served_flagVars, served_serving.
      by rewrite Hpool.
Qed.

Lemma malformed_pool_limit_is_served_witness :
  (program quarterHour (world (Some ∅) ∅ ["-db-max-open-conns=abc"])).1
  = Done tt.
Proof.
  destruct (malformed_pool_limit_is_served quarterHour (15 * 60 * Second))
    as (s & c & H & _).
  - reflexivity.
  - rewrite H. reflexivity.
Defined.

(** C3 (the code departs from the claim).  With [DB_MAX_OPEN_CONNS=10],
    [DB_MAX_IDLE_CONNS=5] and [DB_MAX_IDLE_TIME=1h] in the environment and
    no flag, the two connection limits resolve to ["1h"], the value of
    [DB_MAX_IDLE_TIME]; without [DB_MAX_IDLE_TIME] they resolve to the
    default ["25"]. *)
Theorem pool_limits_read_idle_time_variable :
  (exists c,
      resolve (world (Some ∅)
                 (<["DB_MAX_OPEN_CONNS" := "10"]>
                    (<["DB_MAX_IDLE_CONNS" := "5"]>
                       {["DB_MAX_IDLE_TIME" := "1h"]})) []) = Done c
      /\ db_maxOpenConns c = "1h" /\ db_maxIdleConns c = "1h"
      /\ db_maxIdleTime c = "1h")
  /\ (exists c,
        resolve (world (Some ∅)
                   (<["DB_MAX_OPEN_CONNS" := "10"]>
                      {["DB_MAX_IDLE_CONNS" := "5"]}) []) = Done c
        /\ db_maxOpenConns c = "25" /\ db_maxIdleConns c = "25").
Proof.
  split; eexists; (split; [vm_compute; reflexivity | repeat split]).
Qed.

(** C4 (the code departs from the claim).  With no flag and no variable
    the resolved list of trusted origins is empty, not the wildcard; the
    wildcard appears when the flag is given, whatever its value, and the
    variable is not set. *)
Theorem cors_default_needs_the_flag :
  (exists c, resolve plainWorld = Done c /\ cors_trustedOrigins c = [])
  /\ (exists c,
        resolve (world (Some ∅) ∅
                   ["-cors-trusted-origins=https://a.example"])
        = Done c
        /\ cors_trustedOrigins c = ["*"]).
Proof.
  split; eexists; (split; [vm_compute; reflexivity | reflexivity]).
Qed.

(** C5. [openDB] always returns; it returns a handle exactly when the
    connection string opens, the idle time parses and the liveness check
    succeeds, and then the handle is the configured pool and the error is
    [nil]; in every other case the handle is [nil] and the error is not.
    It makes at most one liveness check, exactly one whenever the
    connection string opens and the idle time parses, and every check is
    given 5 seconds. *)
Theorem openDB_handle_or_error ParseDuration w c s :
  exists db err evs,
    openDB ParseDuration w c s = (Done (db, err), extend s evs)
    /\ (db = None <-> err <> None)
    /\ (db <> None <->
        sqlOpen w (db_dsn c) = None
        /\ (ParseDuration (db_maxIdleTime c)).2 = None
        /\ ping w (pool ParseDuration c) (5 * Second) = None)
    /\ (db <> None -> db = Some (pool ParseDuration c))
    /\ (pings evs = [] \/ pings evs = [5 * Second])
    /\ (sqlOpen w (db_dsn c) = None
        /\ (ParseDuration (db_maxIdleTime c)).2 = None <->
        pings evs = [5 * Second]).
Proof.
  rewrite openDB_run.
  destruct (sqlOpen w (db_dsn c)) as [e1|].
  { eexists _, _, _. split; [reflexivity|]. simpl.
    repeat split; try tauto; try congruence; try discriminate;
      intuition congruence. }
  destruct (ParseDuration (db_maxIdleTime c)).2 as [e2|].
  { eexists _, _, _. split; [reflexivity|]. simpl.
    repeat split; try tauto; try congruence; try discriminate;
      intuition congruence. }
  destruct (ping w (pool ParseDuration c) (5 * Second)) as [e3|].
  { eexists _, _, _. split; [reflexivity|]. simpl.
    repeat split; try tauto; try congruence; try discriminate;
      intuition congruence. }
  eexists _, _, _. split; [reflexivity|]. simpl.
  repeat split; try tauto; try congruence; try discriminate;
    intuition congruence.
Qed.

(** C6.  For every schedule of submissions and completions, whatever
    units fail: the outstanding count is the number of submissions minus
    the number of completions, failed or not; it is zero once as many
    units have ended as were submitted; and the drain wait returns
    exactly when no unit runs, which is exactly when the count is zero. *)
Theorem background_tasks_drain schedule t :
  tracker.run tracker.empty schedule = Some t ->
  tracker.outstanding t
  = Z.of_nat (tracker.submissions schedule)
    - Z.of_nat (tracker.completions schedule)
  /\ (tracker.completions schedule = tracker.submissions schedule ->
      tracker.outstanding t = 0 /\ tracker.drained t = true)
  /\ (tracker.drained t = true <-> tracker.running t = ∅)
  /\ (tracker.drained t = true <->
      tracker.completions schedule = tracker.submissions schedule).
Proof.
  intros H. destruct (tracker_run_counts _ _ _ H) as [H1 H2].
  cbn [tracker.empty tracker.outstanding tracker.running] in H1, H2.
  rewrite size_empty in H2. unfold tracker.drained.
  repeat split.
  - lia.
  - lia.
  - apply Z.eqb_eq. lia.
  - intros Hd%Z.eqb_eq. apply leibniz_equiv, size_empty_inv. lia.
  - intros He. apply Z.eqb_eq. rewrite He, size_empty in H2. lia.
  - intros Hd%Z.eqb_eq. lia.
  - intros He. apply Z.eqb_eq. lia.
Qed.

Lemma background_tasks_drain_witness :
  tracker.outstanding <$>
    tracker.run tracker.empty
      [tracker.Submit 1; tracker.Submit 2; tracker.Submit 3;
       tracker.Complete 2 (tracker.Failed "panic");
       tracker.Complete 1 tracker.Finished;
       tracker.Complete 3 tracker.Finished]
  = Some 0.
Proof.
  destruct (tracker.run tracker.empty
      [tracker.Submit 1; tracker.Submit 2; tracker.Submit 3;
       tracker.Complete 2 (tracker.Failed "panic");
       tracker.Complete 1 tracker.Finished;
       tracker.Complete 3 tracker.Finished]) as [t|] eqn:H;
    [|vm_compute in H; discriminate H].
  destruct (background_tasks_drain _ t H) as (_ & H0 & _).
  simpl. f_equal. apply H0. reflexivity.
Defined.

(** C7. When the [.env] file cannot be loaded the process logs
    ["Error loading .env file"] and exits with status 1; nothing else has
    happened: no flag is defined, the command line is not read, the
    configuration is untouched, no pool is opened, nothing is published
    or served. *)
Theorem missing_dotenv_is_fatal ParseDuration w :
  dotenv w = None ->
  program ParseDuration w =
  (Exit 1,
   {| cfg := zero_config; formal := ∅; actual := ∅; vars := ∅;
      trace := [EFatal "Error loading .env file"] |}).
Proof. intros H. by rewrite (program_unloaded _ _ H). Qed.

Lemma missing_dotenv_is_fatal_witness :
  dotenv (world None ∅ []) = None
  /\ (program quarterHour (world None ∅ [])).1 = Exit 1.
Proof.
  split; [reflexivity|].
  rewrite (missing_dotenv_is_fatal quarterHour (world None ∅ []));
    reflexivity.
Defined.

(** C8. In a run that reaches [app.serve], the goroutine count, the pool
    statistics and the timestamp are published as functions: read at any
    moment [now] they give the count, the statistics of the pool of the
    application, and the time of that moment.  The version is the
    constant ["1.0.0"]. *)
Theorem diagnostics_read_live ParseDuration w r s app :
  program ParseDuration w = (r, s) ->
  EServe app ∈ trace s ->
  exists d,
    models app = Some d
    /\ forall now,
        expvar.poll (vars s) "version" now = Some (AnyString "1.0.0")
        /\ expvar.poll (vars s) "goroutines" now
           = Some (AnyInt (NumGoroutine now))
        /\ expvar.poll (vars s) "database" now
           = Some (AnyStats (Stats now d))
        /\ expvar.poll (vars s) "timestamp" now = Some (AnyInt (Now now)).
Proof.
  intros H Hin.
  destruct (program_cases _ _ _ _ H)
    as [[_ He]|(c & _ & _ & _ & _ & Hv & Hs)].
  { exfalso. exact (early_not_served _ _ He Hin). }
  apply served_elem in Hin. rewrite Hs in Hin.
  apply list_elem_of_singleton in Hin. subst app.
  exists (pool ParseDuration c). split; [reflexivity|].
  intros now. rewrite Hv. unfold expvar.poll, published.
  repeat split; by simplify_map_eq.
Qed.

Lemma diagnostics_read_live_witness :
  expvar.poll (vars (program quarterHour plainWorld).2) "goroutines"
    (moment 7 1 1700000000) = Some (AnyInt 7)
  /\ expvar.poll (vars (program quarterHour plainWorld).2) "goroutines"
       (moment 9 3 1700000060) = Some (AnyInt 9).
Proof.
  destruct (diagnostics_read_live quarterHour plainWorld
              (program quarterHour plainWorld).1
              (program quarterHour plainWorld).2
              (app_of (defaults ∅ 2 4 true 25)
                 (Some (pool quarterHour (defaults ∅ 2 4 true 25)))))
    as (d & _ & Hpoll).
  - apply surjective_pairing.
  - apply list_elem_of_lookup. exists 26%nat. vm_compute. reflexivity.
  - split.
    + destruct (Hpoll (moment 7 1 1700000000)) as (_ & Hg & _). exact Hg.
    + destruct (Hpoll (moment 9 3 1700000060)) as (_ & Hg & _). exact Hg.
Defined.

(** C9. When the value of [LIMITER_RPS], [LIMITER_BURST],
    [LIMITER_ENABLED] or [SMTP_PORT] in the environment is present and
    malformed, the process ends with status 1 while the flags are being
    defined: the trace holds definitions of flags and then the fatal
    message, and [flag.Parse] is never reached, whatever the command
    line is. *)
Theorem malformed_environment_is_fatal ParseDuration w os :
  godotenv_Load w = (os, None) ->
  malformedEnvironment os = true ->
  exists s k msg,
    program ParseDuration w = (Exit 1, s)
    /\ trace s = map EFlagVar (take k names) ++ [EFatal msg]
    /\ msg ∈ fatalMessages
    /\ (forall a, EFlagParse a ∉ trace s)
    /\ actual s = ∅.
Proof.
  intros Hl Hm. apply typedEnv_malformed in Hm.
  destruct (defineFlags_fatal os Hm)
    as (s & k & msg & Hd & Htr & Hmsg & _ & Hact).
  exists s, k, msg. split; [|split; [exact Htr|split; [exact Hmsg|]]].
  - rewrite (program_loaded _ _ _ Hl). unfold configure.
    erewrite bind_Exit; [reflexivity|]. by erewrite bind_Exit.
  - split.
    + intros a Ha. rewrite Htr in Ha. apply elem_of_app in Ha.
      destruct Ha as [Ha|Ha].
      * apply list_elem_of_In, in_map_iff in Ha.
        destruct Ha as (n & Hn & _). discriminate Hn.
      * apply list_elem_of_singleton in Ha. discriminate Ha.
    + exact Hact.
Qed.

Lemma malformed_environment_is_fatal_witness :
  (program quarterHour
     (world (Some ∅) {["LIMITER_RPS" := "abc"]} ["-limiter-rps=5"])).1
  = Exit 1.
Proof.
  destruct (malformed_environment_is_fatal quarterHour
              (world (Some ∅) {["LIMITER_RPS" := "abc"]} ["-limiter-rps=5"])
              {["LIMITER_RPS" := "abc"]})
    as (s & k & msg & H & _).
  - vm_compute. reflexivity.
  - vm_compute. reflexivity.
  - rewrite H. reflexivity.
Defined.

(** C10. When [SMTP_SENDER] is not set, or set to the empty text, and no
    [smtp-sender] flag is given, the resolved sender is ["15m"]: [getEnv]
    takes an empty value for a missing one and returns the default that
    line 86 gives it. *)
Theorem smtp_sender_default w os c :
  godotenv_Load w = (os, None) ->
  os !! "SMTP_SENDER" = None \/ os !! "SMTP_SENDER" = Some EmptyString ->
  given "smtp-sender" (args w) = false ->
  resolve w = Done c ->
  smtp_sender c = "15m".
Proof.
  intros Hl Hunset Hng Hres.
  destruct (resolve_default w c SmtpSender Hres Hng)
    as (os' & rps & burst & enabled & sp & Hl' & _ & Hf).
  rewrite Hl in Hl'. injection Hl' as <-.
  simpl in Hf. injection Hf as ->.
  apply getEnv_unset, Getenv_unset, Hunset.
Qed.

Lemma smtp_sender_default_witness :
  exists c,
    resolve (world (Some ∅) {["SMTP_SENDER" := EmptyString]} ["-port=8080"])
    = Done c
    /\ smtp_sender c = "15m".
Proof.
  destruct (resolve (world (Some ∅) {["SMTP_SENDER" := EmptyString]}
                       ["-port=8080"]))
    as [c| |] eqn:H; try (vm_compute in H; discriminate H).
  exists c. split; [reflexivity|].
  apply (smtp_sender_default
           (world (Some ∅) {["SMTP_SENDER" := EmptyString]} ["-port=8080"])
           {["SMTP_SENDER" := EmptyString]} c).
  - vm_compute. reflexivity.
  - right. vm_compute. reflexivity.
  - vm_compute. reflexivity.
  - exact H.
Defined.

(** * Further properties of the configuration *)

Lemma flagName_inj x y : flagName x = flagName y -> x = y.
Proof. destruct x, y; simpl; intros H; try reflexivity; discriminate H. Qed.

Lemma scan_name x :
  flag.scan (String "-" (flagName x)) = flag.Flag (flagName x) None.
Proof. destruct x; reflexivity. Qed.

(** The flag of a setting: what it is defined as. *)
Lemma flags_setting os x :
  exists fv, flags os !! flagName x = Some fv
             /\ IsBoolFlag fv = isSwitch x
             /\ forall text c,
                 field x (vSet fv text c).1 = flagValue os x text
                 /\ (vSet fv text c).2 = flagRejects x text.
Proof.
  destruct x; eexists; (split; [unfold flags; by simplify_map_eq|]);
    (split; [reflexivity|]);
    intros text c; simpl;
    try (destruct (strconv.ParseInt text 0));
    try (destruct (strconv.ParseBool text)); split; reflexivity.
Qed.

(** Reading a command line of assignments: every setting holds what its
    last assignment makes of its text, or what it held before. *)
Lemma parse_assignments os l : forall c act c' act' x,
  flag.parse (flags os) (assignments l) c act = (None, c', act') ->
  field x c' = match lastAssigned x l with
               | Some t => flagValue os x t
               | None => field x c
               end.
Proof.
  induction l as [|[y text] l IH]; intros c act c' act' x H.
  { simpl in H. by injection H as <- _. }
  cbn [assignments map flag.parse fst snd] in H.
  unfold assignment in H. rewrite scan_assignment in H.
  destruct (flags_setting os y) as (fv & Hfv & _ & Hset).
  rewrite Hfv in H.
  destruct (Hset text c) as [Hval _].
  assert (Hnext : forall c1,
             vSet fv text c = (c1, None) ->
             flag.parse (flags os) (assignments l) c1
               ({[flagName y]} ∪ act) = (None, c', act') ->
             field x c' = match lastAssigned x ((y, text) :: l) with
                          | Some t => flagValue os x t
                          | None => field x c
                          end).
  { intros c1 Hc1 Hp. rewrite (IH _ _ _ _ x Hp). simpl.
    destruct (lastAssigned x l) as [t|]; [reflexivity|].
    rewrite Hc1 in Hval. simpl in Hval.
    case_decide as Hxy.
    - subst y. exact Hval.
    - replace c1 with (vSet fv text c).1 by (by rewrite Hc1).
      apply (flags_own os (flagName y)); [exact Hfv|].
      intros Heq. apply Hxy. symmetry. by apply flagName_inj. }
  destruct (IsBoolFlag fv); simpl in H;
    destruct (vSet fv text c) as [c1 [e1|]] eqn:Hc1;
    try discriminate H; by apply (Hnext c1).
Qed.

(** The result of [resolve] as a function of the world. *)
Lemma resolve_run w :
  resolve w =
  match dotenv w with
  | None => Exit 1
  | Some file =>
      match typedEnv (environ w ∪ file) with
      | None => Exit 1
      | Some (rps, burst, enabled, smtpPort) =>
          let '(e, c, _) :=
            flag.parse (flags (environ w ∪ file)) (args w)
              (defaults (environ w ∪ file) rps burst enabled smtpPort) ∅ in
          parseOutcome e c
      end
  end.
Proof.
  unfold resolve.
  destruct (Load_cases w) as [[Hd Hl]|(file & Hd & Hl)]; rewrite Hd.
  { unfold configuration, init. by rewrite Hl. }
  rewrite (configuration_loaded _ _ Hl).
  destruct (typedEnv (environ w ∪ file))
    as [[[[rps burst] enabled] sp]|] eqn:Ht.
  - destruct (flag.parse _ _ _ _) as [[e c] act] eqn:Hp.
    by rewrite (configure_typed _ _ _ _ _ _ _ _ _ Ht Hp).
  - destruct (configure_fatal _ (args w) Ht) as (s & k & msg & Hc & _).
    by rewrite Hc.
Qed.

Lemma typedEnv_value os rps burst enabled smtpPort x :
  typedEnv os = Some (rps, burst, enabled, smtpPort) ->
  field x (defaults os rps burst enabled smtpPort) = fromEnvironment os x.
Proof.
  unfold typedEnv, envInt, envBool, fromEnvironment. intros H.
  destruct x; simpl; unfold getEnv;
    try match goal with
        | |- Text _ = _ =>
            clear H;
            destruct (String.eqb (Getenv os _) EmptyString) eqn:He;
            [try reflexivity; apply String.eqb_eq in He; by rewrite He
            |reflexivity]
        | |- Texts _ = _ =>
            clear H; by destruct (String.eqb (Getenv os _) EmptyString)
        end.
  all: repeat match type of H with
         | context [String.eqb (Getenv ?e ?k) EmptyString] =>
             destruct (String.eqb (Getenv e k) EmptyString)
         | context [strconv.Atoi ?v] =>
             destruct (strconv.Atoi v) as [? [?|]]
         | context [strconv.ParseBool ?v] =>
             destruct (strconv.ParseBool v) as [? [?|]]
         end; simpl in H; try discriminate H;
    by injection H as <- <- <- <-.
Qed.

(** Reading assignments and then more arguments. *)
Lemma parse_assignments_app os l rest : forall c act,
  flag.parse (flags os) (assignments l ++ rest) c act =
  match flag.parse (flags os) (assignments l) c act with
  | (None, c1, act1) => flag.parse (flags os) rest c1 act1
  | stopped => stopped
  end.
Proof.
  induction l as [|[y text] l IH]; intros c act; [reflexivity|].
  cbn [assignments map app flag.parse fst snd].
  unfold assignment. rewrite scan_assignment.
  destruct (flags_setting os y) as (fv & Hfv & _ & _). rewrite Hfv.
  destruct (IsBoolFlag fv); simpl;
    destruct (vSet fv text c) as [c1 [e1|]]; try reflexivity; apply IH.
Qed.

Lemma flags_undefined os name : name ∉ names -> flags os !! name = None.
Proof.
  unfold names. intros H.
  repeat (apply not_elem_of_cons in H; destruct H as [? H]).
  unfold flags. by rewrite !lookup_insert_ne, lookup_empty by done.
Qed.

(** A run whose command line is in error stops where [flag.Parse]
    stops. *)
Lemma program_parse_error ParseDuration w os rps burst enabled smtpPort
    e c act :
  godotenv_Load w = (os, None) ->
  typedEnv os = Some (rps, burst, enabled, smtpPort) ->
  flag.parse (flags os) (args w) (defaults os rps burst enabled smtpPort) ∅
  = (Some e, c, act) ->
  program ParseDuration w
  = (Exit (parseStatus e), configured os (args w) (Some e) c act).
Proof.
  intros Hl Ht Hp. rewrite (program_loaded _ _ _ Hl).
  pose proof (configure_typed _ _ _ _ _ _ _ _ _ Ht Hp) as Hc.
  destruct e; cbn [parseOutcome parseStatus] in Hc |- *;
    by rewrite (bind_Exit _ _ _ _ _ Hc).
Qed.

(** An environment without a malformed typed value gives the four
    typed defaults. *)
Lemma typedEnv_wellformed os :
  malformedEnvironment os = false ->
  exists rps burst enabled smtpPort,
    typedEnv os = Some (rps, burst, enabled, smtpPort).
Proof.
  unfold malformedEnvironment, malformedInt, malformedBool, typedEnv,
    envInt, envBool, isError.
  intros H. repeat (apply orb_false_elim in H; destruct H as [H ?]).
  repeat match goal with
         | H : negb (String.eqb ?v EmptyString) && _ = false |- _ =>
             destruct (String.eqb v EmptyString); simpl in H
         | H : match (?f ?v).2 with Some _ => true | None => false end
               = false |- _ =>
             destruct (f v) as [? [?|]]; simpl in H; try discriminate H
         end; eauto.
Qed.

Lemma typedEnv_malformed_iff os :
  typedEnv os = None <-> malformedEnvironment os = true.
Proof.
  split; [|apply typedEnv_malformed].
  intros H. destruct (malformedEnvironment os) eqn:Hm; [reflexivity|].
  destruct (typedEnv_wellformed os Hm) as (? & ? & ? & ? & Ht). congruence.
Qed.

(** Reading a command line of assignments succeeds exactly when every
    text is accepted. *)
Lemma parse_assignments_accepted os l : forall c act,
  (flag.parse (flags os) (assignments l) c act).1.1 = None
  <-> Forall accepted l.
Proof.
  induction l as [|[y text] l IH]; intros c act.
  { split; [constructor|reflexivity]. }
  cbn [assignments map flag.parse fst snd].
  unfold assignment. rewrite scan_assignment.
  destruct (flags_setting os y) as (fv & Hfv & _ & Hset). rewrite Hfv.
  destruct (Hset text c) as [_ Herr].
  rewrite Forall_cons. unfold accepted at 1. cbn [fst snd].
  rewrite <- Herr.
  destruct (IsBoolFlag fv); simpl;
    destruct (vSet fv text c) as [c1 [e1|]]; simpl;
    rewrite ?IH; intuition congruence.
Qed.

(** The first rejected assignment stops the reading. *)
Lemma parse_rejected os l x text more e c act :
  Forall accepted l ->
  flagRejects x text = Some e ->
  exists c' act',
    flag.parse (flags os) (assignments l ++ assignment x text :: more) c act
    = (Some (rejection x text e), c', act').
Proof.
  intros Hl Hrej. rewrite parse_assignments_app.
  apply (parse_assignments_accepted os l c act) in Hl.
  destruct (flag.parse (flags os) (assignments l) c act)
    as [[e0 c1] act1]; simpl in Hl; subst e0.
  cbn [flag.parse]. unfold assignment. rewrite scan_assignment.
  destruct (flags_setting os x) as (fv & Hfv & Hb & Hset). rewrite Hfv.
  destruct (Hset text c1) as [_ Herr]. rewrite Hrej in Herr.
  unfold rejection. rewrite Hb.
  destruct (isSwitch x); simpl;
    destruct (vSet fv text c1) as [c2 e2]; simpl in Herr; subst e2; eauto.
Qed.

(** * Further properties of the runs *)

(** Lines 95-130 of [main] from a state in which nothing is published. *)
Lemma start_run ParseDuration w c s :
  vars s = ∅ ->
  start ParseDuration w c s =
  let '(r, evs, registry) := afterConfiguration ParseDuration w c in
  (r, {| cfg := cfg s; formal := formal s; actual := actual s;
         vars := registry; trace := trace s ++ evs |}).
Proof.
  intros Hv. unfold afterConfiguration.
  pose proof (openDB_run ParseDuration w c s) as Ho.
  destruct (sqlOpen w (db_dsn c)) as [e1|].
  { rewrite (start_failed _ _ _ _ _ _ _ Ho). unfold extend.
    by rewrite Hv. }
  destruct (ParseDuration (db_maxIdleTime c)).2 as [e2|].
  { rewrite (start_failed _ _ _ _ _ _ _ Ho). unfold extend.
    by rewrite Hv. }
  destruct (ping w (pool ParseDuration c) (5 * Second)) as [e3|].
  { rewrite (start_failed _ _ _ _ _ _ _ Ho). unfold extend.
    by rewrite Hv, <- app_assoc. }
  by rewrite (start_opened _ _ _ _ Hv Ho).
Qed.

(** A run whose configuration resolves goes on with lines 95-130. *)
Lemma program_resolved ParseDuration w c :
  resolve w = Done c ->
  exists os act,
    godotenv_Load w = (os, None)
    /\ program ParseDuration w =
       let '(r, evs, registry) := afterConfiguration ParseDuration w c in
       (r, {| cfg := c; formal := flags os; actual := act;
              vars := registry;
              trace := map EFlagVar names ++ [EFlagParse (args w)]
                       ++ evs |}).
Proof.
  intros Hres.
  destruct (resolve_Done _ _ Hres)
    as (os & rps & burst & enabled & sp & act & Hl & Ht & Hp & Hc).
  exists os, act. split; [exact Hl|].
  rewrite (configuration_loaded _ _ Hl) in Hc.
  rewrite (program_loaded _ _ _ Hl), (bind_Done _ _ _ _ _ Hc).
  rewrite start_run by reflexivity.
  destruct (afterConfiguration ParseDuration w c) as [[r evs] registry].
  cbn [cfg formal actual trace configured parseEvents].
  by rewrite <- app_assoc.
Qed.

(** Every run, case by case. *)
Lemma program_run ParseDuration w :
  (dotenv w = None
   /\ program ParseDuration w
      = (Exit 1, extend initial [EFatal "Error loading .env file"]))
  \/ (exists os s k msg,
        godotenv_Load w = (os, None) /\ typedEnv os = None
        /\ program ParseDuration w = (Exit 1, s)
        /\ trace s = map EFlagVar (take k names) ++ [EFatal msg]
        /\ vars s = ∅)
  \/ (exists os rps burst enabled smtpPort e c act,
        godotenv_Load w = (os, None)
        /\ typedEnv os = Some (rps, burst, enabled, smtpPort)
        /\ flag.parse (flags os) (args w)
             (defaults os rps burst enabled smtpPort) ∅ = (Some e, c, act)
        /\ program ParseDuration w
           = (Exit (parseStatus e), configured os (args w) (Some e) c act))
  \/ (exists os c act,
        godotenv_Load w = (os, None) /\ resolve w = Done c
        /\ program ParseDuration w =
           let '(r, evs, registry) := afterConfiguration ParseDuration w c in
           (r, {| cfg := c; formal := flags os; actual := act;
                  vars := registry;
                  trace := map EFlagVar names ++ [EFlagParse (args w)]
                           ++ evs |})).
Proof.
  destruct (Load_cases w) as [[Hd Hl]|(file & Hd & Hl)].
  { left. split; [exact Hd|]. by apply program_unloaded. }
  right. set (os := environ w ∪ file) in *.
  destruct (typedEnv os) as [[[[rps burst] enabled] sp]|] eqn:Ht.
  2:{ left. destruct (configure_fatal _ (args w) Ht)
        as (s & k & msg & Hc & Htr & _ & Hv & _).
      exists os, s, k, msg. repeat (split; [done|]). split; [|done].
      by rewrite (program_loaded _ _ _ Hl), (bind_Exit _ _ _ _ _ Hc). }
  right.
  destruct (flag.parse (flags os) (args w)
              (defaults os rps burst enabled sp) ∅) as [[[e|] c] act] eqn:Hp.
  - left. exists os, rps, burst, enabled, sp, e, c, act.
    repeat (split; [done|]). by eapply program_parse_error.
  - right.
    assert (Hres : resolve w = Done c).
    { unfold resolve. rewrite (configuration_loaded _ _ Hl). fold os.
      by rewrite (configure_typed _ _ _ _ _ _ _ _ _ Ht Hp). }
    destruct (program_resolved ParseDuration w c Hres)
      as (os' & act' & Hl' & Hrun).
    rewrite Hl in Hl'. injection Hl' as <-.
    exists os, c, act'. by repeat (split; [done|]).
Qed.

Lemma early_excludes tr :
  Forall early tr ->
  (forall name, EPublish name ∉ tr) /\ (forall app, EServe app ∉ tr)
  /\ (EClose ∉ tr) /\ served tr = [].
Proof.
  intros H. repeat split.
  - intros name Hin. rewrite Forall_forall in H. exact (H _ Hin).
  - intros app Hin. rewrite Forall_forall in H. exact (H _ Hin).
  - intros Hin. rewrite Forall_forall in H. exact (H _ Hin).
  - induction H as [|e tr He _ IH]; [reflexivity|].
    destruct e; simpl in *; try assumption. destruct He.
Qed.

Lemma pings_app tr1 tr2 : pings (tr1 ++ tr2) = pings tr1 ++ pings tr2.
Proof.
  induction tr1 as [|e tr1 IH]; [reflexivity|].
  destruct e; simpl; by rewrite ?IH.
Qed.

Lemma pings_flagVars l : pings (map EFlagVar l) = [].
Proof. induction l; simpl; auto. Qed.

(** The two ways lines 95-130 go: the pool is not set up, or it is and
    the server runs. *)
Lemma afterConfiguration_cases ParseDuration w c :
  (exists e evs,
      afterConfiguration ParseDuration w c = (Exit 1, evs, ∅)
      /\ Forall early evs
      /\ last evs = Some (EPrintFatal e)
      /\ ~ (sqlOpen w (db_dsn c) = None
            /\ (ParseDuration (db_maxIdleTime c)).2 = None
            /\ ping w (pool ParseDuration c) (5 * Second) = None))
  \/ (sqlOpen w (db_dsn c) = None
      /\ (ParseDuration (db_maxIdleTime c)).2 = None
      /\ ping w (pool ParseDuration c) (5 * Second) = None
      /\ afterConfiguration ParseDuration w c
         = ((ending w (app_of c (Some (pool ParseDuration c)))).1,
            serving ParseDuration w c,
            published (Some (pool ParseDuration c)))).
Proof.
  unfold afterConfiguration.
  destruct (sqlOpen w (db_dsn c)) as [e1|].
  { left. eexists e1, _. split; [reflexivity|].
    split; [repeat constructor|]. split; [reflexivity|].
    intros (H & _). discriminate H. }
  destruct (ParseDuration (db_maxIdleTime c)).2 as [e2|].
  { left. eexists e2, _. split; [reflexivity|].
    split; [repeat constructor|]. split; [reflexivity|].
    intros (_ & H & _). discriminate H. }
  destruct (ping w (pool ParseDuration c) (5 * Second)) as [e3|].
  { left. eexists e3, _. split; [reflexivity|].
    split; [repeat constructor|]. split; [reflexivity|].
    intros (_ & _ & H). discriminate H. }
  right. by repeat split.
Qed.

Lemma early_configured w :
  Forall early (map EFlagVar names ++ [EFlagParse (args w)]).
Proof.
  apply Forall_app. split; [apply early_flagVars|repeat constructor].
Qed.

(** The liveness checks of a run that serves. *)
Lemma pings_serving ParseDuration w c :
  pings (serving ParseDuration w c) = [5 * Second].
Proof.
  unfold serving, ending. rewrite !pings_app.
  by destruct (serve w (app_of c (Some (pool ParseDuration c)))).
Qed.

(** * The integers of the program *)

(** The accumulator of the digit loop stays a [uint64], also when the
    loop stops with an error. *)
Lemma digits_range base0 base cutoff s : forall n u,
  0 <= n <= strconv.maxUint64 ->
  0 <= (strconv.digits base0 base cutoff strconv.maxUint64 s n u).1.1
    <= strconv.maxUint64.
Proof.
  assert (H0 : 0 <= 0 <= strconv.maxUint64)
    by (unfold strconv.maxUint64; lia).
  assert (Hm : 0 <= strconv.maxUint64 <= strconv.maxUint64)
    by (unfold strconv.maxUint64; lia).
  induction s as [|a s IH]; intros n u Hn; cbn [strconv.digits].
  { exact Hn. }
  destruct (_ && base0); [by apply IH|].
  match goal with
  | |- context [match ?t with Some _ => _ | None => _ end] =>
      destruct t as [d|]; [|exact H0]
  end.
  destruct (d >=? base); [exact H0|].
  destruct (n >=? cutoff); [exact Hm|].
  destruct (_ || _) eqn:Hc; [exact Hm|].
  apply orb_false_elim in Hc. destruct Hc as [_ Hc].
  apply IH. split.
  - apply Z.mod_pos_bound. reflexivity.
  - rewrite Z.gtb_ltb in Hc. apply Z.ltb_ge in Hc. exact Hc.
Qed.

Lemma parseDigits_range base0 base s0 body :
  0 <= (strconv.parseDigits base0 base s0 body).1 <= strconv.maxUint64.
Proof.
  unfold strconv.parseDigits.
  pose proof (digits_range base0 base (strconv.maxUint64 / base + 1) body
                0 false) as Hd.
  destruct (strconv.digits _ _ _ _ _ _ _) as [[n [e|]] u].
  - apply Hd. unfold strconv.maxUint64. lia.
  - destruct (_ && _).
    + unfold strconv.maxUint64. simpl. lia.
    + apply Hd. unfold strconv.maxUint64. lia.
Qed.

Lemma ParseUint_range s base :
  0 <= (strconv.ParseUint s base).1 <= strconv.maxUint64.
Proof.
  unfold strconv.ParseUint.
  destruct s as [|a0 r0]; [unfold strconv.maxUint64; simpl; lia|].
  repeat match goal with
         | |- context [if ?b then _ else _] => destruct b
         | |- context [match ?r with EmptyString => _ | String _ _ => _ end] =>
             destruct r
         end; apply parseDigits_range.
Qed.

(** Whatever the text and whether it is accepted or not, the integer
    [ParseInt] returns fits [int]. *)
Lemma ParseInt_range s base : intRange (strconv.ParseInt s base).1.
Proof.
  unfold strconv.ParseInt, intRange.
  destruct s as [|a r]; [simpl; lia|].
  pose proof (ParseUint_range (if strconv.is_sign a then r else String a r)
                base) as Hu.
  destruct (strconv.ParseUint _ base) as [un e]. simpl in Hu.
  unfold strconv.maxUint64 in Hu.
  generalize (strconv.code a =? strconv.code "-")%Z. intros neg.
  assert (Hr : - 2 ^ 63 <=
               (if negb neg && (un >=? 2 ^ 63) then (2 ^ 63 - 1, Some ErrRange)
                else if neg && (un >? 2 ^ 63) then (- 2 ^ 63, Some ErrRange)
                else (if neg then - un else un, None)).1 < 2 ^ 63).
  { destruct neg; cbn [negb andb];
      [destruct (Z.gtb_spec un (2 ^ 63))
      |destruct (Z.geb_spec un (2 ^ 63))]; cbn [fst]; lia. }
  destruct e as [[]|]; first [exact Hr | cbn [fst]; lia].
Qed.

(** A text that [ParseInt] rejects for its syntax gives 0. *)
Lemma ParseInt_syntax s base :
  (strconv.ParseInt s base).2 = Some ErrSyntax ->
  (strconv.ParseInt s base).1 = 0.
Proof.
  unfold strconv.ParseInt.
  destruct s as [|a r]; [reflexivity|].
  destruct (strconv.ParseUint _ base) as [un [e|]].
  - destruct e; try reflexivity.
    destruct (_ && _); [discriminate|]. destruct (_ && _); discriminate.
  - destruct (_ && _); [discriminate|]. destruct (_ && _); discriminate.
Qed.

(** What holds of the configuration before the command line is read and
    is kept by every flag holds after it. *)
Lemma parse_invariant (P : config -> Prop) formal :
  (forall n fv text c, formal !! n = Some fv -> P c -> P (vSet fv text c).1) ->
  forall arguments c act e c' act',
    P c -> flag.parse formal arguments c act = (e, c', act') -> P c'.
Proof.
  intros Hkeep.
  induction arguments as [|s rest IH IH2] using arguments_ind;
    intros c act e c' act' Hc H; simpl in H.
  { by injection H as _ <- _. }
  destruct (flag.scan s) as [| | |n v];
    try (by injection H as _ <- _).
  destruct (formal !! n) as [fv|] eqn:Hn;
    [|destruct (_ || _); by injection H as _ <- _].
  destruct (IsBoolFlag fv).
  - pose proof (Hkeep n fv (default "true" v) c Hn Hc) as Hc1.
    destruct (vSet fv (default "true" v) c) as [c1 [e1|]];
      [by injection H as _ <- _|]. by eapply IH.
  - destruct v as [text|].
    + pose proof (Hkeep n fv text c Hn Hc) as Hc1.
      destruct (vSet fv text c) as [c1 [e1|]];
        [by injection H as _ <- _|]. by eapply IH.
    + destruct rest as [|text rest']; [by injection H as _ <- _|].
      pose proof (Hkeep n fv text c Hn Hc) as Hc1.
      destruct (vSet fv text c) as [c1 [e1|]];
        [by injection H as _ <- _|]. by eapply (IH2 _ _ eq_refl).
Qed.

Lemma flags_keep_range os n fv text c :
  flags os !! n = Some fv -> intsInRange c -> intsInRange (vSet fv text c).1.
Proof.
  intros H (H1 & H2 & H3). pose proof (ParseInt_range text 0) as Hr.
  flag_cases H; unfold intsInRange; cbn [vSet flag.stringValue
    flag.intValue flag.boolValue flag.funcValue corsFunc];
    try (destruct (strconv.ParseInt text 0); cbn [fst] in Hr);
    try (destruct (strconv.ParseBool text));
    (split; [|split]); first [exact H1 | exact H2 | exact H3 | exact Hr].
Qed.

Lemma envInt_range os name value n :
  intRange value -> envInt os name value = Some n -> intRange n.
Proof.
  unfold envInt. intros Hv H.
  destruct (String.eqb _ _); [by injection H as <-|].
  pose proof (ParseInt_range (Getenv os name) 10) as Hr.
  unfold strconv.Atoi in H.
  destruct (strconv.ParseInt _ 10) as [m [e|]]; [discriminate H|].
  by injection H as <-.
Qed.

Lemma typedEnv_range os rps burst enabled smtpPort :
  typedEnv os = Some (rps, burst, enabled, smtpPort) ->
  intsInRange (defaults os rps burst enabled smtpPort).
Proof.
  unfold typedEnv. intros H.
  destruct (envInt os "LIMITER_RPS" 2) as [n1|] eqn:H1; [|discriminate H].
  destruct (envInt os "LIMITER_BURST" 4) as [n2|] eqn:H2; [|discriminate H].
  destruct (envBool os "LIMITER_ENABLED" true) as [b|]; [|discriminate H].
  destruct (envInt os "SMTP_PORT" 25) as [n3|] eqn:H3; [|discriminate H].
  injection H as <- <- <- <-.
  (split; [|split]); simpl;
    (eapply envInt_range; [|eassumption]); unfold intRange; lia.
Qed.

(** The environment [main] runs in does not depend on what the [.env]
    file says of the variables the process already has. *)
Lemma union_agree (e file file' : gmap string string) :
  (forall k, e !! k = None -> file' !! k = file !! k) ->
  e ∪ file' = e ∪ file.
Proof.
  intros H. apply map_eq. intros k. rewrite !lookup_union.
  destruct (e !! k) as [v|] eqn:He.
  - by destruct (file' !! k), (file !! k).
  - by rewrite (H k He).
Qed.

(** * Further properties *)

(** X1. On a command line made of assignments [-name=text], every
    setting resolves to what its flag makes of the text of its last
    assignment; a setting that is not assigned resolves to the value of
    its variable in the environment, or to its built-in default when the
    variable is empty or not set. *)
Theorem assignments_last_wins w c l x :
  args w = assignments l ->
  resolve w = Done c ->
  exists os,
    godotenv_Load w = (os, None)
    /\ field x c = match lastAssigned x l with
                   | Some text => flagValue os x text
                   | None => fromEnvironment os x
                   end.
Proof.
  intros Ha H.
  destruct (resolve_Done _ _ H)
    as (os & rps & burst & enabled & sp & act & Hl & Ht & Hp & _).
  exists os. split; [exact Hl|].
  rewrite Ha in Hp. rewrite (parse_assignments _ _ _ _ _ _ x Hp).
  destruct (lastAssigned x l); [reflexivity|].
  by apply typedEnv_value.
Qed.

Lemma assignments_last_wins_witness :
  exists c,
    resolve portTwiceWorld = Done c
    /\ field Port c = Text "2" /\ field LimiterRps c = Int 16
    /\ field Env c = Text "development".
Proof.
  destruct (resolve portTwiceWorld) as [c| |] eqn:H;
    try (vm_compute in H; discriminate H).
  exists c. split; [reflexivity|].
  repeat split.
  - destruct (assignments_last_wins portTwiceWorld c portTwice Port
                eq_refl H) as (os & Hl & ->).
    reflexivity.
  - destruct (assignments_last_wins portTwiceWorld c portTwice LimiterRps
                eq_refl H) as (os & Hl & ->).
    vm_compute. reflexivity.
  - destruct (assignments_last_wins portTwiceWorld c portTwice Env
                eq_refl H) as (os & Hl & ->).
    injection Hl as <-. vm_compute. reflexivity.
Defined.

(** X2. Whatever the command line is, a setting whose flag is not given
    resolves to the value of its variable in the environment, or to its
    built-in default when the variable is empty or not set.  The
    variables and the defaults are those of lines 70-89: both connection
    limits read [DB_MAX_IDLE_TIME], and without its flag the list of
    trusted origins is empty. *)
Theorem setting_without_flag w c x :
  given (flagName x) (args w) = false ->
  resolve w = Done c ->
  exists os,
    godotenv_Load w = (os, None) /\ field x c = fromEnvironment os x.
Proof.
  intros Hng H.
  destruct (resolve_default w c x H Hng)
    as (os & rps & burst & enabled & sp & Hl & Ht & Hf).
  exists os. split; [exact Hl|].
  rewrite Hf. by apply typedEnv_value.
Qed.

Lemma setting_without_flag_witness :
  exists c,
    resolve limiterOffWorld = Done c
    /\ field LimiterEnabled c = Bool false.
Proof.
  destruct (resolve limiterOffWorld) as [c| |] eqn:H;
    try (vm_compute in H; discriminate H).
  exists c. split; [reflexivity|].
  destruct (setting_without_flag limiterOffWorld c LimiterEnabled
              eq_refl H) as (os & Hl & ->).
  injection Hl as <-. vm_compute. reflexivity.
Defined.

(** X3. A flag other than [limiter-enabled] takes the next argument as
    its text when none is attached with [=], whatever that argument
    looks like: the command line [-name text] resolves the setting like
    [-name=text]. *)
Theorem flag_takes_next_argument w c x text :
  isSwitch x = false ->
  args w = [String "-" (flagName x); text] ->
  resolve w = Done c ->
  exists os,
    godotenv_Load w = (os, None) /\ field x c = flagValue os x text.
Proof.
  intros Hsw Ha H.
  destruct (resolve_Done _ _ H)
    as (os & rps & burst & enabled & sp & act & Hl & Ht & Hp & _).
  exists os. split; [exact Hl|].
  rewrite Ha in Hp. cbn [flag.parse] in Hp. rewrite scan_name in Hp.
  destruct (flags_setting os x) as (fv & Hfv & Hb & Hset).
  rewrite Hfv, Hb, Hsw in Hp.
  destruct (Hset text (defaults os rps burst enabled sp)) as [<- _].
  destruct (vSet fv text _) as [c1 [e1|]]; [discriminate Hp|].
  by injection Hp as <- _.
Qed.

Lemma flag_takes_next_argument_witness :
  exists c,
    resolve (world (Some ∅) ∅ ["-env"; "-port=1"]) = Done c
    /\ field Env c = Text "-port=1".
Proof.
  destruct (resolve (world (Some ∅) ∅ ["-env"; "-port=1"]))
    as [c| |] eqn:H; try (vm_compute in H; discriminate H).
  exists c. split; [reflexivity|].
  destruct (flag_takes_next_argument
              (world (Some ∅) ∅ ["-env"; "-port=1"]) c Env "-port=1"
              eq_refl eq_refl H) as (os & _ & ->).
  reflexivity.
Defined.

(** X4. After assignments, the first argument that is not a flag, or the
    terminator [--], ends the reading of the command line: whatever
    follows it has no effect on the resolved configuration. *)
Theorem arguments_after_a_word_are_ignored w l word more :
  args w = assignments l ++ word :: more ->
  flag.scan word = flag.NotAFlag \/ flag.scan word = flag.Terminator ->
  resolve w = resolve (withArgs w (assignments l)).
Proof.
  intros Ha Hw. rewrite !resolve_run. cbn [withArgs dotenv environ args].
  destruct (dotenv w) as [file|]; [|reflexivity].
  destruct (typedEnv (environ w ∪ file))
    as [[[[rps burst] enabled] sp]|]; [|reflexivity].
  rewrite Ha, parse_assignments_app.
  destruct (flag.parse _ (assignments l) _ _) as [[[e|] c1] act1];
    [reflexivity|].
  cbn [flag.parse]. by destruct Hw as [-> | ->].
Qed.

Lemma arguments_after_a_word_are_ignored_witness :
  resolve (world (Some ∅) ∅
             (assignments [(Port, "80")] ++ ["serve"; "-port=81"; "-bogus"]))
  = resolve (world (Some ∅) ∅ (assignments [(Port, "80")])).
Proof.
  apply (arguments_after_a_word_are_ignored
           (world (Some ∅) ∅
              (assignments [(Port, "80")] ++ ["serve"; "-port=81"; "-bogus"]))
           [(Port, "80")] "serve" ["-port=81"; "-bogus"]).
  - reflexivity.
  - left. reflexivity.
Defined.

(** X5. The flag [limiter-enabled] takes no separate argument: given
    alone it turns the limiter on, and a word after it is not read as
    its value, so that [-limiter-enabled false] resolves to an enabled
    limiter. *)
Theorem limiter_switch_reads_no_word w c word more :
  args w = "-limiter-enabled" :: word :: more ->
  flag.scan word = flag.NotAFlag ->
  resolve w = Done c ->
  limiter_enabled c = true.
Proof.
  intros Ha Hw H.
  destruct (resolve_Done _ _ H)
    as (os & rps & burst & enabled & sp & act & Hl & Ht & Hp & _).
  rewrite Ha in Hp. cbn [flag.parse] in Hp.
  change (flag.scan "-limiter-enabled")
    with (flag.Flag "limiter-enabled" None) in Hp.
  cbv beta iota in Hp.
  destruct (flags_setting os LimiterEnabled) as (fv & Hfv & Hb & Hset).
  cbn [flagName] in Hfv. rewrite Hfv, Hb in Hp.
  cbn [isSwitch default] in Hp.
  destruct (Hset "true" (defaults os rps burst enabled sp)) as [Hv _].
  destruct (vSet fv "true" _) as [c1 [e1|]]; [discriminate Hp|].
  cbn [flag.parse] in Hp. rewrite Hw in Hp.
  injection Hp as <- _. simpl in Hv. by injection Hv.
Qed.

Lemma limiter_switch_reads_no_word_witness :
  exists c,
    resolve (world (Some ∅) {["LIMITER_ENABLED" := "false"]}
               ["-limiter-enabled"; "false"]) = Done c
    /\ limiter_enabled c = true.
Proof.
  destruct (resolve (world (Some ∅) {["LIMITER_ENABLED" := "false"]}
                       ["-limiter-enabled"; "false"]))
    as [c| |] eqn:H; try (vm_compute in H; discriminate H).
  exists c. split; [reflexivity|].
  apply (limiter_switch_reads_no_word
           (world (Some ∅) {["LIMITER_ENABLED" := "false"]}
              ["-limiter-enabled"; "false"]) c "false" []);
    [reflexivity | reflexivity | exact H].
Defined.

(** X6. A flag that [main] does not define stops the start-up while the
    command line is read: the process exits with status 2, or with
    status 0 when the flag is [-h] or [-help], and nothing is opened,
    published or served. *)
Theorem undefined_flag_stops ParseDuration w os a name v rest :
  godotenv_Load w = (os, None) ->
  malformedEnvironment os = false ->
  args w = a :: rest ->
  flag.scan a = flag.Flag name v ->
  name ∉ names ->
  exists s,
    program ParseDuration w = (Exit (parseStatus (undefinedFlag name)), s)
    /\ trace s = map EFlagVar names
                 ++ [EFlagParse (args w); EFlagError (undefinedFlag name)]
    /\ vars s = ∅.
Proof.
  intros Hl Hm Ha Hs Hn.
  destruct (typedEnv_wellformed os Hm) as (rps & burst & enabled & sp & Ht).
  assert (Hp : flag.parse (flags os) (args w)
                 (defaults os rps burst enabled sp) ∅
               = (Some (undefinedFlag name),
                  defaults os rps burst enabled sp, ∅)).
  { rewrite Ha. cbn [flag.parse]. rewrite Hs, (flags_undefined os name Hn).
    unfold undefinedFlag. by destruct (_ || _). }
  eexists. split; [by eapply program_parse_error|]. split; reflexivity.
Qed.

Lemma undefined_flag_stops_witness :
  (program quarterHour (world (Some ∅) ∅ ["-verbose"; "-port=80"])).1
  = Exit 2
  /\ (program quarterHour (world (Some ∅) ∅ ["--help"])).1 = Exit 0.
Proof.
  split.
  - destruct (undefined_flag_stops quarterHour
                (world (Some ∅) ∅ ["-verbose"; "-port=80"]) ∅
                "-verbose" "verbose" None ["-port=80"]) as (s & H & _);
      [reflexivity | reflexivity | reflexivity | reflexivity | |
       rewrite H; reflexivity].
    unfold names. intros Hin.
    repeat (apply elem_of_cons in Hin; destruct Hin as [Hin|Hin];
            [discriminate Hin|]).
    by apply elem_of_nil in Hin.
  - destruct (undefined_flag_stops quarterHour
                (world (Some ∅) ∅ ["--help"]) ∅
                "--help" "help" None []) as (s & H & _);
      [reflexivity | reflexivity | reflexivity | reflexivity | |
       rewrite H; reflexivity].
    unfold names. intros Hin.
    repeat (apply elem_of_cons in Hin; destruct Hin as [Hin|Hin];
            [discriminate Hin|]).
    by apply elem_of_nil in Hin.
Defined.

(** X7. On a command line of assignments the first text that its flag
    rejects (an integer or a boolean that does not parse) stops the
    start-up with status 2 and the error of that flag; the arguments
    after it are not read and nothing is opened, published or served. *)
Theorem rejected_assignment_stops ParseDuration w os l x text more e :
  godotenv_Load w = (os, None) ->
  malformedEnvironment os = false ->
  args w = assignments l ++ assignment x text :: more ->
  Forall accepted l ->
  flagRejects x text = Some e ->
  exists s,
    program ParseDuration w = (Exit 2, s)
    /\ trace s = map EFlagVar names
                 ++ [EFlagParse (args w); EFlagError (rejection x text e)]
    /\ vars s = ∅.
Proof.
  intros Hl Hm Ha Hacc Hrej.
  destruct (typedEnv_wellformed os Hm) as (rps & burst & enabled & sp & Ht).
  destruct (parse_rejected os l x text more e
              (defaults os rps burst enabled sp) ∅ Hacc Hrej)
    as (c' & act' & Hp).
  rewrite <- Ha in Hp.
  exists (configured os (args w) (Some (rejection x text e)) c' act').
  split.
  - rewrite (program_parse_error _ _ _ _ _ _ _ _ _ _ Hl Ht Hp).
    unfold rejection. destruct (isSwitch x); reflexivity.
  - split; reflexivity.
Qed.

Lemma rejected_assignment_stops_witness :
  (program quarterHour
     (world (Some ∅) ∅
        (assignments [(Port, "80")]
         ++ assignment SmtpPort "smtp" :: ["-port=81"]))).1
  = Exit 2.
Proof.
  destruct (rejected_assignment_stops quarterHour
              (world (Some ∅) ∅
                 (assignments [(Port, "80")]
                  ++ assignment SmtpPort "smtp" :: ["-port=81"]))
              ∅ [(Port, "80")] SmtpPort "smtp" ["-port=81"] ErrSyntax)
    as (s & H & _);
    [reflexivity | reflexivity | reflexivity | | reflexivity |
     rewrite H; reflexivity].
  repeat constructor.
Defined.

(** X8. When the environment has no malformed typed value, a command
    line of assignments resolves exactly when every text is accepted by
    its flag. *)
Theorem assignments_resolve_iff w os l :
  godotenv_Load w = (os, None) ->
  malformedEnvironment os = false ->
  args w = assignments l ->
  (exists c, resolve w = Done c) <-> Forall accepted l.
Proof.
  intros Hl Hm Ha.
  destruct (typedEnv_wellformed os Hm) as (rps & burst & enabled & sp & Ht).
  rewrite <- (parse_assignments_accepted os l
                (defaults os rps burst enabled sp) ∅).
  unfold resolve. rewrite (configuration_loaded _ _ Hl).
  destruct (flag.parse (flags os) (args w)
              (defaults os rps burst enabled sp) ∅) as [[e c] act] eqn:Hp.
  rewrite (configure_typed _ _ _ _ _ _ _ _ _ Ht Hp).
  rewrite Ha in Hp. rewrite Hp. cbn [fst].
  destruct e as [e|]; simpl.
  - split; [|discriminate]. intros [c0 H]. by destruct e.
  - split; [reflexivity|]. eauto.
Qed.

Lemma assignments_resolve_iff_witness :
  (exists c,
      resolve (world (Some ∅) ∅
                 (assignments [(LimiterBurst, "0b101"); (Env, "staging")]))
      = Done c).
Proof.
  apply (assignments_resolve_iff
           (world (Some ∅) ∅
              (assignments [(LimiterBurst, "0b101"); (Env, "staging")]))
           ∅ [(LimiterBurst, "0b101"); (Env, "staging")]);
    [reflexivity | reflexivity | reflexivity |].
  repeat constructor.
Defined.

(** X9. When the configuration resolves and the pool cannot be set up
    (the connection string does not open, or the idle time does not
    parse, or the liveness check fails), the error of that step is
    logged as fatal and the process exits with status 1: nothing is
    published or served, the pool is not closed, and no liveness check
    is made unless it is the check that failed. *)
Theorem pool_failure_is_fatal ParseDuration w c :
  resolve w = Done c ->
  sqlOpen w (db_dsn c) <> None
  \/ (ParseDuration (db_maxIdleTime c)).2 <> None
  \/ ping w (pool ParseDuration c) (5 * Second) <> None ->
  exists s e,
    program ParseDuration w = (Exit 1, s)
    /\ last (trace s) = Some (EPrintFatal e)
    /\ vars s = ∅
    /\ (forall name, EPublish name ∉ trace s)
    /\ (forall app, EServe app ∉ trace s)
    /\ (EClose ∉ trace s)
    /\ (pings (trace s) = []
        \/ (ping w (pool ParseDuration c) (5 * Second) = Some e
            /\ pings (trace s) = [5 * Second])).
Proof.
  intros Hres Hfail.
  destruct (program_resolved ParseDuration w c Hres)
    as (os & act & Hl & Hrun).
  unfold afterConfiguration in Hrun.
  assert (Hflags : Forall early
                     (map EFlagVar names ++ [EFlagParse (args w)])).
  { apply Forall_app. split; [apply early_flagVars|repeat constructor]. }
  destruct (sqlOpen w (db_dsn c)) as [e1|].
  { eexists _, e1. split; [exact Hrun|]. cbn [trace vars].
    split; [by rewrite !last_app|]. split; [reflexivity|].
    rewrite app_assoc.
    assert (He : Forall early
                   ((map EFlagVar names ++ [EFlagParse (args w)])
                    ++ [ESqlOpen "postgres" (db_dsn c); EPrintFatal e1])).
    { apply Forall_app. split; [exact Hflags|repeat constructor]. }
    destruct (early_excludes _ He) as (? & ? & ? & _).
    repeat (split; [assumption|]). left.
    by rewrite !pings_app, pings_flagVars. }
  destruct (ParseDuration (db_maxIdleTime c)).2 as [e2|].
  { eexists _, e2. split; [exact Hrun|]. cbn [trace vars].
    split; [by rewrite !last_app|]. split; [reflexivity|].
    rewrite app_assoc.
    assert (He : Forall early
                   ((map EFlagVar names ++ [EFlagParse (args w)])
                    ++ opening c ++ [EPrintFatal e2])).
    { apply Forall_app. split; [exact Hflags|]. repeat constructor. }
    destruct (early_excludes _ He) as (? & ? & ? & _).
    repeat (split; [assumption|]). left.
    by rewrite !pings_app, pings_flagVars. }
  destruct (ping w (pool ParseDuration c) (5 * Second)) as [e3|].
  { eexists _, e3. split; [exact Hrun|]. cbn [trace vars].
    split; [by rewrite !last_app|]. split; [reflexivity|].
    rewrite app_assoc.
    assert (He : Forall early
                   ((map EFlagVar names ++ [EFlagParse (args w)])
                    ++ opening c ++ checking ParseDuration c
                    ++ [EPrintFatal e3])).
    { apply Forall_app. split; [exact Hflags|]. repeat constructor. }
    destruct (early_excludes _ He) as (? & ? & ? & _).
    repeat (split; [assumption|]). right. split; [reflexivity|].
    by rewrite !pings_app, pings_flagVars. }
  exfalso. destruct Hfail as [H|[H|H]]; by apply H.
Qed.

Lemma pool_failure_is_fatal_witness :
  (program quarterHour
     (world (Some ∅) ∅ (assignments [(DbMaxIdleTime, "soon")]))).1
  = Exit 1.
Proof.
  destruct (pool_failure_is_fatal quarterHour
              (world (Some ∅) ∅ (assignments [(DbMaxIdleTime, "soon")]))
              (set_db_maxIdleTime "soon" (defaults ∅ 2 4 true 25)))
    as (s & e & H & _).
  - vm_compute. reflexivity.
  - right. left. discriminate.
  - rewrite H. reflexivity.
Defined.

(** X10. The process never panics, and its last event tells how it
    ended: a normal end comes after the pool is closed, status 0 after a
    request for help, status 2 after another error of the command line,
    status 1 after a fatal message of [log.Fatal] or of the logger. *)
Theorem outcome_is_announced ParseDuration w :
  announces (program ParseDuration w).1
    (last (trace (program ParseDuration w).2)).
Proof.
  destruct (program_run ParseDuration w)
    as [[_ H]|[(os & s & k & msg & _ & _ & H & Htr & _)
       |[(os & rps & burst & enabled & sp & e & c & act & _ & _ & _ & H)
        |(os & c & act & _ & _ & H)]]]; rewrite H.
  - right. right. split; [reflexivity|]. left. by eexists.
  - cbn [fst snd announces]. rewrite Htr, last_snoc.
    right. right. split; [reflexivity|]. left. by eexists.
  - cbn [fst snd announces trace configured parseEvents].
    rewrite !last_app. cbn [last].
    destruct e; cbn [parseStatus];
      first [ left; by split
            | right; left; split; [reflexivity|];
              eexists; split; [|reflexivity]; discriminate ].
  - destruct (afterConfiguration_cases ParseDuration w c)
      as [(e & evs & -> & _ & Hlast & _)|(_ & _ & _ & ->)].
    + cbn [fst snd announces trace]. rewrite !last_app, Hlast.
      right. right. split; [reflexivity|]. right. by eexists.
    + cbn [fst snd trace]. unfold serving, ending.
      destruct (serve w _) as [e|]; cbn [fst snd announces];
        rewrite !last_app; cbn [last].
      * right. right. split; [reflexivity|]. right. by eexists.
      * reflexivity.
Qed.

(** X11. The deferred [db.Close] runs exactly in the runs that end
    normally, and those are the runs in which the configuration
    resolves, the pool is set up and [app.serve] returns without error;
    when [app.serve] returns an error the process exits with the pool
    still open. *)
Theorem pool_is_closed_iff ParseDuration w :
  (EClose ∈ trace (program ParseDuration w).2
   <-> (program ParseDuration w).1 = Done tt)
  /\ ((program ParseDuration w).1 = Done tt
      <-> exists c,
          resolve w = Done c
          /\ sqlOpen w (db_dsn c) = None
          /\ (ParseDuration (db_maxIdleTime c)).2 = None
          /\ ping w (pool ParseDuration c) (5 * Second) = None
          /\ serve w (app_of c (Some (pool ParseDuration c))) = None).
Proof.
  destruct (program_run ParseDuration w)
    as [[Hd H]|[(os & s & k & msg & Hl & Ht & H & Htr & _)
       |[(os & rps & burst & enabled & sp & e & c & act & Hl & Ht & Hp & H)
        |(os & c & act & Hl & Hres & H)]]]; rewrite H; cbn [fst snd].
  - split; split.
    + intros Hin. apply list_elem_of_singleton in Hin. discriminate Hin.
    + discriminate.
    + discriminate.
    + intros (c & Hres & _). rewrite resolve_run, Hd in Hres.
      discriminate Hres.
  - assert (He : Forall early (trace s)).
    { rewrite Htr. apply Forall_app.
      split; [apply early_flagVars|repeat constructor]. }
    destruct (early_excludes _ He) as (_ & _ & Hc & _).
    split; split; try discriminate; try (intros Hin; by destruct Hc).
    intros (c & Hres & _).
    destruct (resolve_Done _ _ Hres)
      as (os' & ? & ? & ? & ? & ? & Hl' & Ht' & _).
    rewrite Hl in Hl'. injection Hl' as <-. congruence.
  - assert (He : Forall early
                   (trace (configured os (args w) (Some e) c act))).
    { apply Forall_app. split; [apply early_flagVars|repeat constructor]. }
    destruct (early_excludes _ He) as (_ & _ & Hc & _).
    split; split; try discriminate; try (intros Hin; by destruct Hc).
    intros (c' & Hres & _).
    destruct (resolve_Done _ _ Hres)
      as (os' & ? & ? & ? & ? & ? & Hl' & Ht' & Hp' & _).
    rewrite Hl in Hl'. injection Hl' as <-.
    rewrite Ht in Ht'. injection Ht' as <- <- <- <-.
    rewrite Hp in Hp'. discriminate Hp'.
  - destruct (afterConfiguration_cases ParseDuration w c)
      as [(e & evs & -> & He & _ & Hnot)|(Ho & Hdur & Hping & ->)];
      cbn [fst snd trace].
    + assert (He' : Forall early
                      (map EFlagVar names ++ [EFlagParse (args w)] ++ evs)).
      { rewrite app_assoc. apply Forall_app.
        split; [apply early_configured|exact He]. }
      destruct (early_excludes _ He') as (_ & _ & Hc & _).
      split; split; try discriminate; try (intros Hin; by destruct Hc).
      intros (c' & Hres' & H1 & H2 & H3 & _).
      rewrite Hres in Hres'. injection Hres' as <-. by destruct Hnot.
    + unfold serving, ending.
      destruct (serve w (app_of c (Some (pool ParseDuration c))))
        as [e|] eqn:Hserve; cbn [fst snd].
      * assert (He' : EClose ∉
                  map EFlagVar names ++ [EFlagParse (args w)]
                  ++ opening c ++ checking ParseDuration c
                  ++ [EPrintInfo "database connection pool established"]
                  ++ publishing
                  ++ [EServe (app_of c (Some (pool ParseDuration c)))]
                  ++ [EPrintFatal e]).
        { intros Hin. apply list_elem_of_In, in_app_iff in Hin.
          destruct Hin as [Hin|Hin].
          - apply in_map_iff in Hin. destruct Hin as (? & Hin & _).
            discriminate Hin.
          - unfold opening, checking, publishing in Hin. simpl in Hin.
            intuition discriminate. }
        split; split; try discriminate; try (intros Hin; by destruct He').
        intros (c' & Hres' & _ & _ & _ & Hs).
        rewrite Hres in Hres'. injection Hres' as <-. congruence.
      * split; split; try reflexivity.
        -- intros _. rewrite !elem_of_app. do 7 right.
           apply list_elem_of_here.
        -- intros _. by exists c.
Qed.

(** X12. Whenever [app.serve] is run, the application it is given holds
    the resolved configuration, the mailer built from the resolved SMTP
    settings, and the pool that [openDB] set up; that pool passed its one
    liveness check, and start-up went in order: the flags, the command
    line, the pool, the diagnostics, the server. *)
Theorem served_application_is_validated ParseDuration w r s app :
  program ParseDuration w = (r, s) ->
  EServe app ∈ trace s ->
  exists c,
    resolve w = Done c
    /\ app = app_of c (Some (pool ParseDuration c))
    /\ ping w (pool ParseDuration c) (5 * Second) = None
    /\ pings (trace s) = [5 * Second]
    /\ trace s = map EFlagVar names ++ [EFlagParse (args w)]
                 ++ serving ParseDuration w c.
Proof.
  intros Hrun Hin.
  assert (Hs : s = (program ParseDuration w).2) by (by rewrite Hrun).
  subst s. clear Hrun.
  destruct (program_run ParseDuration w)
    as [[_ H]|[(os & s' & k & msg & _ & _ & H & Htr & _)
       |[(os & rps & burst & enabled & sp & e & c & act & _ & _ & _ & H)
        |(os & c & act & _ & Hres & H)]]];
    rewrite H in Hin |- *; cbn [snd] in Hin |- *.
  - exfalso. apply list_elem_of_singleton in Hin. discriminate Hin.
  - exfalso. rewrite Htr in Hin.
    eapply early_not_served; [|exact Hin].
    apply Forall_app. split; [apply early_flagVars|repeat constructor].
  - exfalso. eapply early_not_served; [|exact Hin].
    apply Forall_app. split; [apply early_flagVars|repeat constructor].
  - destruct (afterConfiguration_cases ParseDuration w c)
      as [(e & evs & Ha & He & _ & _)|(_ & _ & Hping & Ha)];
      rewrite Ha in Hin |- *; cbn [snd trace] in Hin |- *.
    + exfalso. eapply early_not_served; [|exact Hin].
      rewrite app_assoc. apply Forall_app.
      split; [apply early_configured|exact He].
    + apply served_elem in Hin.
      rewrite !served_app, served_flagVars, served_serving in Hin.
      apply list_elem_of_singleton in Hin. subst app.
      exists c. repeat (split; [done|]). split; [|reflexivity].
      by rewrite !pings_app, pings_flagVars, pings_serving.
Qed.

Lemma served_application_is_validated_witness :
  app_config
    <$> head (served (trace (program quarterHour plainWorld).2))
  = Some (defaults ∅ 2 4 true 25).
Proof.
  destruct (served_application_is_validated quarterHour plainWorld
              (program quarterHour plainWorld).1
              (program quarterHour plainWorld).2
              (app_of (defaults ∅ 2 4 true 25)
                 (Some (pool quarterHour (defaults ∅ 2 4 true 25)))))
    as (c & Hres & Happ & _).
  - apply surjective_pairing.
  - apply list_elem_of_lookup. exists 26%nat. vm_compute. reflexivity.
  - vm_compute. reflexivity.
Defined.

(** X13. [flag.Parse] is reached exactly when the [.env] file loads and
    no typed variable of the environment is malformed; it is then given
    the arguments of the process. *)
Theorem command_line_is_read_iff ParseDuration w :
  (exists a, EFlagParse a ∈ trace (program ParseDuration w).2)
  <-> exists os,
      godotenv_Load w = (os, None) /\ malformedEnvironment os = false.
Proof.
  assert (Hnot : forall k tail,
             (forall a, EFlagParse a ∉ tail) ->
             forall a, EFlagParse a ∉ map EFlagVar (take k names) ++ tail).
  { intros k tail Ht a Hin. apply elem_of_app in Hin.
    destruct Hin as [Hin|Hin]; [|exact (Ht _ Hin)].
    apply list_elem_of_In, in_map_iff in Hin.
    destruct Hin as (? & Hin & _). discriminate Hin. }
  assert (Hyes : forall os tail,
             godotenv_Load w = (os, None) -> typedEnv os <> None ->
             (exists a, EFlagParse a ∈
                        map EFlagVar names ++ [EFlagParse (args w)] ++ tail)
             <-> exists os,
                 godotenv_Load w = (os, None)
                 /\ malformedEnvironment os = false).
  { intros os tail Hl Ht. split.
    - intros _. exists os. split; [exact Hl|].
      destruct (malformedEnvironment os) eqn:Hm; [|reflexivity].
      by apply typedEnv_malformed in Hm.
    - intros _. exists (args w). rewrite !elem_of_app. right. left.
      apply list_elem_of_here. }
  destruct (program_run ParseDuration w)
    as [[Hd H]|[(os & s & k & msg & Hl & Ht & H & Htr & _)
       |[(os & rps & burst & enabled & sp & e & c & act & Hl & Ht & _ & H)
        |(os & c & act & Hl & Hres & H)]]]; rewrite H; cbn [snd].
  - split.
    + intros (a & Hin). apply list_elem_of_singleton in Hin.
      discriminate Hin.
    + intros (os & Hl & _). unfold godotenv_Load in Hl. rewrite Hd in Hl.
      discriminate Hl.
  - rewrite Htr. split.
    + intros (a & Hin). exfalso. revert Hin. apply Hnot.
      intros a' Hin. apply list_elem_of_singleton in Hin. discriminate Hin.
    + intros (os' & Hl' & Hm). rewrite Hl in Hl'. injection Hl' as <-.
      apply typedEnv_malformed_iff in Ht. congruence.
  - cbn [trace configured parseEvents].
    apply (Hyes os [EFlagError e] Hl). congruence.
  - destruct (afterConfiguration ParseDuration w c) as [[r evs] registry].
    cbn [trace].
    destruct (resolve_Done _ _ Hres)
      as (os' & ? & ? & ? & ? & ? & Hl' & Ht' & _).
    rewrite Hl in Hl'. injection Hl' as <-.
    apply (Hyes os evs Hl). congruence.
Qed.

(** X14. The [.env] file does not override the environment: two files
    that agree on the variables the process does not have give the same
    run, whatever they say of the variables it has, also those set to the
    empty text. *)
Theorem dotenv_yields_to_environment ParseDuration w file file' :
  dotenv w = Some file ->
  (forall k, environ w !! k = None -> file' !! k = file !! k) ->
  program ParseDuration (withDotenv w file') = program ParseDuration w.
Proof.
  intros Hd H. unfold program, init, godotenv_Load.
  cbn [withDotenv dotenv environ]. rewrite Hd, (union_agree _ _ _ H).
  reflexivity.
Qed.

Lemma dotenv_yields_to_environment_witness :
  program quarterHour
    (withDotenv (world (Some {["PORT" := "5000"]})
                   {["PORT" := EmptyString]} [])
       {["PORT" := "6000"]})
  = program quarterHour
      (world (Some {["PORT" := "5000"]}) {["PORT" := EmptyString]} []).
Proof.
  apply (dotenv_yields_to_environment quarterHour
           (world (Some {["PORT" := "5000"]}) {["PORT" := EmptyString]} [])
           {["PORT" := "5000"]} {["PORT" := "6000"]}).
  - reflexivity.
  - intros k Hk. cbn [world environ] in Hk.
    destruct (decide (k = "PORT")) as [->|Hne].
    + rewrite lookup_singleton_eq in Hk. discriminate Hk.
    + by rewrite !lookup_singleton_ne.
Defined.

(** X15. The integers of a run fit Go's [int]: the three integer
    settings of a resolved configuration, from the environment or from a
    flag, and the two limits [openDB] gives to the pool, whatever the
    texts they are parsed from. *)
Theorem integers_fit_int ParseDuration w c :
  resolve w = Done c ->
  intsInRange c
  /\ intRange (maxOpen (pool ParseDuration c))
  /\ intRange (maxIdle (pool ParseDuration c)).
Proof.
  intros Hres.
  destruct (resolve_Done _ _ Hres)
    as (os & rps & burst & enabled & sp & act & _ & Ht & Hp & _).
  split; [|split; apply ParseInt_range].
  eapply (parse_invariant intsInRange); [|by apply typedEnv_range|exact Hp].
  intros n fv text c0. apply flags_keep_range.
Qed.

Lemma integers_fit_int_witness :
  exists c, resolve portTwiceWorld = Done c /\ intsInRange c.
Proof.
  destruct (resolve portTwiceWorld) as [c| |] eqn:H;
    try (vm_compute in H; discriminate H).
  exists c. split; [reflexivity|].
  apply (integers_fit_int quarterHour portTwiceWorld c H).
Defined.

(** X16. Without the flags [db-max-open-conns] and [db-max-idle-conns]
    the pool gets one number as both limits, parsed from the text of
    [DB_MAX_IDLE_TIME]: 25 when the variable is unset or empty, and 0
    when it holds a text that [strconv.Atoi] rejects for its syntax, a
    duration for instance. *)
Theorem pool_limits_follow_idle_time ParseDuration w c :
  resolve w = Done c ->
  given "db-max-open-conns" (args w) = false ->
  given "db-max-idle-conns" (args w) = false ->
  exists os,
    godotenv_Load w = (os, None)
    /\ maxOpen (pool ParseDuration c) = maxIdle (pool ParseDuration c)
    /\ (Getenv os "DB_MAX_IDLE_TIME" = EmptyString ->
        maxOpen (pool ParseDuration c) = 25)
    /\ (Getenv os "DB_MAX_IDLE_TIME" <> EmptyString ->
        (strconv.Atoi (Getenv os "DB_MAX_IDLE_TIME")).2 = Some ErrSyntax ->
        maxOpen (pool ParseDuration c) = 0).
Proof.
  intros Hres Ho Hi.
  destruct (resolve_default w c DbMaxOpenConns Hres Ho)
    as (os & rps & burst & enabled & sp & Hl & _ & Hfo).
  destruct (resolve_default w c DbMaxIdleConns Hres Hi)
    as (os' & rps' & burst' & enabled' & sp' & Hl' & _ & Hfi).
  rewrite Hl in Hl'. injection Hl' as <-.
  simpl in Hfo, Hfi. injection Hfo as Hfo. injection Hfi as Hfi.
  exists os. split; [exact Hl|]. cbn [pool maxOpen maxIdle].
  rewrite Hfo, Hfi. split; [reflexivity|]. unfold getEnv. split.
  - intros ->. reflexivity.
  - intros Hne Hsyn. apply String.eqb_neq in Hne. rewrite Hne. simpl.
    by apply ParseInt_syntax.
Qed.

Lemma pool_limits_follow_idle_time_witness :
  exists c,
    resolve (world (Some ∅) {["DB_MAX_IDLE_TIME" := "15m"]} []) = Done c
    /\ maxOpen (pool quarterHour c) = 0
    /\ maxIdle (pool quarterHour c) = 0.
Proof.
  destruct (resolve (world (Some ∅) {["DB_MAX_IDLE_TIME" := "15m"]} []))
    as [c| |] eqn:H; try (vm_compute in H; discriminate H).
  exists c. split; [reflexivity|].
  destruct (pool_limits_follow_idle_time quarterHour
              (world (Some ∅) {["DB_MAX_IDLE_TIME" := "15m"]} []) c H
              eq_refl eq_refl)
    as (os & Hl & Heq & _ & Hz).
  injection Hl as <-.
  assert (H0 : maxOpen (pool quarterHour c) = 0).
  { apply Hz; [discriminate|reflexivity]. }
  split; [exact H0|]. rewrite <- Heq. exact H0.
Defined.
